(** * NovelMind editor utility scripts: icon mapping, icon copying,
      resource manifest, icon table source text, placeholder assets.

    The five scripts under [experiments/] are embedded as Rocq functions:
    - [map_icons_to_lucide.py]   : [check_icons_exist], [suggest_alternatives]
    - [copy_lucide_icons.py]     : [copy_icons]
    - [generate_qrc.py]          : [generate_qrc]
    - [generate_icon_mapping_cpp.py] : [generate_cpp_mapping]
    - [generate_assets.py]       : [create_character_svg],
                                   [create_background_svg], [create_silent_wav]

    Conventions of the embedding.
    - A Python [str] is a [string]: the UTF-8 bytes of the text.  Prefix,
      suffix and substring tests, concatenation, [split] and [replace] on a
      single-byte separator, and the code-point order used by [sorted] all
      agree with the same operations on the UTF-8 bytes.
    - A [dict] read from the mapping file is a [gmap string string]; its
      consumers only call [values()], sort the keys and look keys up, so the
      insertion order is not observable.  The literal table [ICON_MAPPING] is
      iterated with [items()], so it is an association list in source order.
    - The scripts that only read the file system see it as the answers of
      the operating system for each path string ([Os]).  The copier also
      writes, so its file system is a tree of directories and files with a
      working directory against which relative paths are resolved ([Fs]);
      the tree has no symbolic links.  Calls that raise in Python return
      [Raise] here. *)

From Stdlib Require Import ZArith Ascii String List Permutation Sorted.
From stdpp Require Import base option list sorting gmap strings.

Local Open Scope string_scope.
Local Open Scope list_scope.

(** ** Python string operations *)

Module Py.

(** [s.startswith(p)] *)
Definition startswith (s p : string) : bool := String.prefix p s.

(** [s.endswith(suffix)] *)
Fixpoint endswith (s suffix : string) : bool :=
  if String.eqb s suffix then true
  else match s with
       | EmptyString => false
       | String _ s' => endswith s' suffix
       end.

(** [needle in hay] *)
Fixpoint contains (needle hay : string) : bool :=
  if String.prefix needle hay then true
  else match hay with
       | EmptyString => false
       | String _ hay' => contains needle hay'
       end.

(** [s.split(sep)[0]] for a one-character separator: the text before the
    first occurrence of [sep], the whole of [s] when there is none. *)
Fixpoint split_head (sep : ascii) (s : string) : string :=
  match s with
  | EmptyString => EmptyString
  | String c s' => if Ascii.eqb c sep then EmptyString
                   else String c (split_head sep s')
  end.

(** [s.replace(old, new)]: every non-overlapping occurrence of [old],
    scanning from the left.  [skip] counts the characters of a matched
    occurrence that are still to be dropped. *)
Fixpoint replace_from (old new : string) (skip : nat) (s : string) : string :=
  match s with
  | EmptyString => EmptyString
  | String c s' =>
      match skip with
      | S k => replace_from old new k s'
      | O => if String.prefix old s
             then new +:+ replace_from old new (String.length old - 1) s'
             else String c (replace_from old new 0 s')
      end
  end.

Fixpoint intersperse_str (new s : string) : string :=
  match s with
  | EmptyString => EmptyString
  | String c s' => String c (new +:+ intersperse_str new s')
  end.

Definition replace (s old new : string) : string :=
  match old with
  | EmptyString => new +:+ intersperse_str new s
  | String _ _ => replace_from old new 0 s
  end.

(** [sep.join(parts)] *)
Definition join (sep : string) (parts : list string) : string :=
  String.concat sep parts.

(** [sorted(xs)] on strings: ascending in the code-point order. *)
Definition sorted (xs : list string) : list string :=
  merge_sort String.le xs.

(** [xs[:n]] *)
Definition slice_to {A} (n : nat) (xs : list A) : list A := take n xs.

Definition nl : string := String "010"%char EmptyString.
Definition dq : ascii := "034"%char.

(** String literals of the source are written here with an apostrophe
    where the source has a double quote; [lit] puts the double quotes
    back.  No literal of the source contains an apostrophe. *)
Fixpoint lit (s : string) : string :=
  match s with
  | EmptyString => EmptyString
  | String c s' => String (if Ascii.eqb c "'"%char then dq else c) (lit s')
  end.

End Py.

(** ** Exceptions and the operating-system calls the scripts make *)

Inductive exn : Set :=
| FileNotFoundError
| FileExistsError
| IsADirectoryError
| NotADirectoryError
| SameFileError
| KeyError
| StructError.

Inductive result (A : Type) : Type :=
| Return (a : A)
| Raise (e : exn).
Arguments Return {A} a.
Arguments Raise {A} e.

Global Instance result_ret : MRet result := fun A a => Return a.
Global Instance result_bind : MBind result := fun A B f r =>
  match r with
  | Return a => f a
  | Raise e => Raise e
  end.

Definition is_Return {A} (r : result A) : Prop := ∃ a, r = Return a.

Module Os.

Inductive node : Type :=
| File (data : string)
| Dir.

Abbreviation filesystem := (gmap string node).

Definition lookup_path (fs : filesystem) (p : string) : option node := fs !! p.

(** [os.path.exists(p)] *)
Definition exists_ (fs : filesystem) (p : string) : bool :=
  match fs !! p with Some _ => true | None => false end.

(** [os.path.isfile(p)] *)
Definition isfile (fs : filesystem) (p : string) : bool :=
  match fs !! p with Some (File _) => true | _ => false end.

(** [os.path.isdir(p)] *)
Definition isdir (fs : filesystem) (p : string) : bool :=
  match fs !! p with Some Dir => true | _ => false end.

(** [os.path.join(a, b)] (posixpath): an absolute [b] replaces [a]. *)
Definition join (a b : string) : string :=
  if Py.startswith b "/" then b
  else if String.eqb a "" || Py.endswith a "/" then a +:+ b
  else a +:+ "/" +:+ b.

(** [os.path.basename(p)]: the text after the last slash. *)
Fixpoint basename (p : string) : string :=
  match p with
  | EmptyString => EmptyString
  | String c p' =>
      if Py.contains "/" p then basename p' else p
  end.

(** The file system together with the order in which the operating
    system yields the entry names of each directory.  The scripts that
    list a directory only read. *)
Record world : Type := World {
  nodes : filesystem;
  dir_order : string → list string
}.

(** [os.listdir(path)] *)
Definition listdir (w : world) (path : string) : result (list string) :=
  match nodes w !! path with
  | Some Dir => Return (dir_order w path)
  | Some (File _) => Raise NotADirectoryError
  | None => Raise FileNotFoundError
  end.

End Os.

(** ** map_icons_to_lucide.py *)

(** [ICON_MAPPING.items()] of an arbitrary table: the entries
    (current name, Lucide name) in the order of the dict. *)
Abbreviation icon_table := (list (string * string)).

(** The literal table of the script, in source order. *)
Definition ICON_MAPPING : icon_table := [
  ("file-new", "file-plus");
  ("file-open", "folder-open");
  ("file-save", "save");
  ("file-close", "x");
  ("edit-undo", "undo");
  ("edit-redo", "redo");
  ("edit-cut", "scissors");
  ("edit-copy", "copy");
  ("edit-paste", "clipboard");
  ("edit-delete", "trash-2");
  ("copy", "copy");
  ("delete", "trash-2");
  ("play", "play");
  ("pause", "pause");
  ("stop", "square");
  ("step-forward", "step-forward");
  ("step-backward", "step-back");
  ("panel-scene", "image");
  ("panel-graph", "git-graph");
  ("panel-inspector", "sliders-horizontal");
  ("panel-console", "terminal");
  ("panel-hierarchy", "list-tree");
  ("panel-assets", "folder");
  ("panel-timeline", "film");
  ("panel-curve", "trending-up");
  ("panel-voice", "mic");
  ("panel-localization", "globe");
  ("panel-diagnostics", "activity");
  ("panel-build", "hammer");
  ("zoom-in", "zoom-in");
  ("zoom-out", "zoom-out");
  ("zoom-fit", "maximize");
  ("settings", "settings");
  ("help", "circle-question-mark");
  ("search", "search");
  ("filter", "list-filter");
  ("refresh", "refresh-cw");
  ("add", "plus");
  ("remove", "minus");
  ("warning", "triangle-alert");
  ("error", "circle-x");
  ("info", "info");
  ("arrow-up", "arrow-up");
  ("arrow-down", "arrow-down");
  ("arrow-left", "arrow-left");
  ("arrow-right", "arrow-right");
  ("chevron-up", "chevron-up");
  ("chevron-down", "chevron-down");
  ("chevron-left", "chevron-left");
  ("chevron-right", "chevron-right");
  ("node-dialogue", "message-square");
  ("node-choice", "git-branch");
  ("node-event", "zap");
  ("node-condition", "diamond");
  ("node-random", "shuffle");
  ("node-start", "circle-play");
  ("node-end", "circle-stop");
  ("node-jump", "corner-down-right");
  ("node-variable", "variable");
  ("object-character", "user");
  ("object-background", "image");
  ("object-prop", "box");
  ("object-effect", "sparkles");
  ("object-ui", "layout-dashboard");
  ("transform-move", "move");
  ("transform-rotate", "rotate-cw");
  ("transform-scale", "maximize-2");
  ("asset-image", "image");
  ("asset-audio", "music");
  ("asset-video", "video");
  ("asset-font", "type");
  ("asset-script", "file-code");
  ("asset-folder", "folder");
  ("tool-select", "mouse-pointer");
  ("tool-hand", "hand");
  ("tool-zoom", "zoom-in");
  ("tool-frame", "frame");
  ("status-success", "circle-check");
  ("status-warning", "triangle-alert");
  ("status-error", "circle-x");
  ("status-info", "info");
  ("breakpoint", "circle-dot");
  ("execute", "circle-play");
  ("layout-grid", "grid-3x3");
  ("layout-list", "list");
  ("layout-tree", "list-tree");
  ("visible", "eye");
  ("hidden", "eye-off");
  ("locked", "lock");
  ("unlocked", "lock-open");
  ("audio-record", "circle");
  ("audio-waveform", "audio-waveform");
  ("audio-mute", "volume-x");
  ("audio-unmute", "volume-2");
  ("audio-volume-low", "volume-1");
  ("audio-volume-high", "volume-2");
  ("microphone", "mic");
  ("microphone-off", "mic-off");
  ("language", "languages");
  ("translate", "languages");
  ("locale-missing", "circle-alert");
  ("locale-key", "key");
  ("locale-add", "circle-plus");
  ("keyframe", "diamond");
  ("keyframe-add", "square-plus");
  ("keyframe-remove", "square-minus");
  ("snap", "magnet");
  ("snap-off", "magnet");
  ("loop", "repeat");
  ("easing-linear", "trending-up");
  ("easing-ease-in", "trending-up");
  ("easing-ease-out", "trending-up");
  ("easing-ease-in-out", "trending-up");
  ("property-vector", "arrow-up-right");
  ("property-color", "palette");
  ("property-number", "hash");
  ("property-text", "type");
  ("property-bool", "toggle-right");
  ("property-link", "link");
  ("property-reset", "rotate-ccw");
  ("property-override", "circle-dot");
  ("external-link", "external-link");
  ("folder-open", "folder-open");
  ("import", "download");
  ("export", "upload");
  ("pin", "pin");
  ("unpin", "pin-off");
  ("welcome-new", "file-plus");
  ("welcome-open", "folder-open");
  ("welcome-examples", "layout-grid");
  ("welcome-docs", "book-open");
  ("welcome-recent", "clock");
  ("template-blank", "file");
  ("template-visual-novel", "book-open");
  ("template-dating-sim", "heart");
  ("template-mystery", "search");
  ("template-rpg", "swords");
  ("template-horror", "skull")
].

(** [check_icons_exist]: one pass over the table, appending each entry to
    [found] or to [missing]. *)
Definition check_icons_step (fs : Os.filesystem) (lucide_icons_path : string)
    (acc : icon_table * icon_table) (entry : string * string)
  : icon_table * icon_table :=
  let '(found, missing) := acc in
  let '(current_name, lucide_name) := entry in
  let icon_file := Os.join lucide_icons_path (lucide_name +:+ ".svg") in
  if Os.exists_ fs icon_file
  then (found ++ [(current_name, lucide_name)], missing)
  else (found, missing ++ [(current_name, lucide_name)]).

Definition check_icons_exist (table : icon_table) (fs : Os.filesystem)
    (lucide_icons_path : string) : icon_table * icon_table :=
  fold_left (check_icons_step fs lucide_icons_path) table ([], []).

(** The test the claim describes: the file [<external_identifier>.svg]
    exists under the directory. *)
Definition icon_exists (fs : Os.filesystem) (dir : string)
    (entry : string * string) : bool :=
  Os.exists_ fs (Os.join dir (entry.2 +:+ ".svg")).

(** [all_lucide_icons]: the names ending in [.svg] of the listing, each
    with every [.svg] replaced by the empty string. *)
Definition all_lucide_icons (listing : list string) : list string :=
  (λ f, Py.replace f ".svg" "") <$>
    filter (λ f, Py.endswith f ".svg" = true) listing.

(** [candidates] of one missing entry. *)
Definition candidates (icons : list string) (lucide_name : string)
  : list string :=
  filter (λ icon, Py.contains (Py.split_head "-" lucide_name) icon = true)
    icons.

Definition suggest_step (icons : list string)
    (alternatives : gmap string (list string)) (entry : string * string)
  : gmap string (list string) :=
  let '(current_name, lucide_name) := entry in
  match candidates icons lucide_name with
  | [] => alternatives
  | (_ :: _) as cands => <[current_name := Py.slice_to 5 cands]> alternatives
  end.

(** [suggest_alternatives(missing_icons, lucide_icons_path)] *)
Definition suggest_alternatives (missing_icons : icon_table) (w : Os.world)
    (lucide_icons_path : string) : result (gmap string (list string)) :=
  listing ← Os.listdir w lucide_icons_path;
  mret (fold_left (suggest_step (all_lucide_icons listing)) missing_icons ∅).

(** The suggestions in the words of the specification: the files of the
    directory whose name contains the token before the first hyphen of the
    external identifier, at most five, in listing order. *)
Definition suggestions_as_specified (listing : list string)
    (lucide_name : string) : list string :=
  take 5 (filter (λ f, Py.contains (Py.split_head "-" lucide_name) f = true)
            listing).

(** ** The file system of the copier *)

Module Fs.

(** A canonical absolute path: the names from the root down, none of them
    empty, [.] or [..].  The tree has no symbolic links, so two canonical
    paths are the same file exactly when they are equal. *)
Abbreviation cpath := (list string).

Record state : Type := State {
  tree : gmap (list string) Os.node;
  cwd : list string
}.

(** The node at a canonical path; the root is a directory. *)
Definition node_at (s : state) (p : cpath) : option Os.node :=
  match p with
  | [] => Some Os.Dir
  | _ :: _ => tree s !! p
  end.

(** [p.split('/')] *)
Fixpoint split_slash_from (acc p : string) : list string :=
  match p with
  | EmptyString => [acc]
  | String c p' =>
      if Ascii.eqb c "/" then acc :: split_slash_from "" p'
      else split_slash_from (acc +:+ String c "") p'
  end.

Definition split_slash (p : string) : list string := split_slash_from "" p.

(** One component of a path is looked up in the directory reached so far,
    which must exist and be a directory. *)
Definition step (s : state) (cur : cpath) (c : string) : result cpath :=
  match node_at s cur with
  | None => Raise FileNotFoundError
  | Some (Os.File _) => Raise NotADirectoryError
  | Some Os.Dir =>
      Return (if String.eqb c "" || String.eqb c "." then cur
              else if String.eqb c ".." then removelast cur
              else cur ++ [c])
  end.

Fixpoint walk (s : state) (cur : cpath) (comps : list string)
  : result cpath :=
  match comps with
  | [] => Return cur
  | c :: rest => cur' ← step s cur c; walk s cur' rest
  end.

(** The canonical path a path string denotes: an absolute path is walked
    from the root, a relative one from the working directory. *)
Definition resolve (s : state) (p : string) : result cpath :=
  if String.eqb p "" then Raise FileNotFoundError
  else walk s (if Py.startswith p "/" then [] else cwd s) (split_slash p).

Definition stat (s : state) (p : string) : result Os.node :=
  cp ← resolve s p;
  match node_at s cp with
  | Some n => Return n
  | None => Raise FileNotFoundError
  end.

(** [os.path.exists(p)] and [os.path.isdir(p)]: false when [stat] raises. *)
Definition exists_ (s : state) (p : string) : bool :=
  match stat s p with Return _ => true | Raise _ => false end.

Definition isdir (s : state) (p : string) : bool :=
  match stat s p with Return Os.Dir => true | _ => false end.

Definition write_node (s : state) (cp : cpath) (n : Os.node) : state :=
  State (<[cp := n]> (tree s)) (cwd s).

(** [os.mkdir(p)] *)
Definition mkdir (p : string) (s : state) : result state :=
  cp ← resolve s p;
  match node_at s cp with
  | Some _ => Raise FileExistsError
  | None => Return (write_node s cp Os.Dir)
  end.

(** The path itself preceded by its ancestors, outermost first:
    [a], [a/b], [a/b/c] for [a/b/c]. *)
Fixpoint ancestors_from (acc p : string) : list string :=
  match p with
  | EmptyString => if String.eqb acc "" then [] else [acc]
  | String c p' =>
      if Ascii.eqb c "/"
      then (if String.eqb acc "" then [] else [acc])
             ++ ancestors_from (acc +:+ "/") p'
      else ancestors_from (acc +:+ String c "") p'
  end.

(** [os.makedirs(name, exist_ok=True)]: its recursion creates the missing
    directories of the chain outermost first; a directory that exists is
    kept; anything else in the way raises. *)
Fixpoint makedirs_chain (chain : list string) (s : state) : result state :=
  match chain with
  | [] => Return s
  | p :: rest =>
      match mkdir p s with
      | Return s1 => makedirs_chain rest s1
      | Raise e =>
          if isdir s p then makedirs_chain rest s
          else Raise (match e, rest with
                      | FileExistsError, _ :: _ => NotADirectoryError
                      | _, _ => e
                      end)
      end
  end.

Definition makedirs_exist_ok (name : string) (s : state) : result state :=
  makedirs_chain (ancestors_from "" name) s.

(** [os.path.samefile] as [shutil] uses it: false when either path cannot
    be examined. *)
Definition samefile (s : state) (a b : string) : bool :=
  match resolve s a, resolve s b with
  | Return ca, Return cb =>
      match node_at s ca, node_at s cb with
      | Some _, Some _ => bool_decide (ca = cb)
      | _, _ => false
      end
  | _, _ => false
  end.

(** [shutil.copyfile(src, dst)]: the same-file test, then [open(src)],
    then [open(dst, 'wb')], whose directory must exist. *)
Definition copyfile (src dst : string) (s : state) : result state :=
  if samefile s src dst then Raise SameFileError
  else
    csrc ← resolve s src;
    match node_at s csrc with
    | None => Raise FileNotFoundError
    | Some Os.Dir => Raise IsADirectoryError
    | Some (Os.File data) =>
        cdst ← resolve s dst;
        match node_at s cdst with
        | Some Os.Dir => Raise IsADirectoryError
        | _ => Return (write_node s cdst (Os.File data))
        end
    end.

(** [shutil.copy2(src, dst)]: a directory [dst] receives the file under
    the base name of [src].  File metadata is not modelled. *)
Definition copy2 (src dst : string) (s : state) : result state :=
  let dst := if isdir s dst then Os.join dst (Os.basename src) else dst in
  copyfile src dst s.

End Fs.

(** ** copy_lucide_icons.py *)

Definition lucide_icons_dir : string := "/tmp/lucide-icons/icons".
Definition target_dir : string := "editor/resources/icons/lucide".

Definition source_file (lucide_icon : string) : string :=
  Os.join lucide_icons_dir (lucide_icon +:+ ".svg").
Definition target_file (lucide_icon : string) : string :=
  Os.join target_dir (lucide_icon +:+ ".svg").

(** The state of the loop: the file system and the two lists. *)
Abbreviation copy_state := (Fs.state * list string * list string)%type.

(** The body of [for lucide_icon in sorted(lucide_icons)]. *)
Definition copy_icons_step (st : copy_state) (lucide_icon : string)
  : result copy_state :=
  let '(s, copied, failed) := st in
  if Fs.exists_ s (source_file lucide_icon)
  then s' ← Fs.copy2 (source_file lucide_icon) (target_file lucide_icon) s;
       mret (s', copied ++ [lucide_icon], failed)
  else mret (s, copied, failed ++ [lucide_icon]).

Fixpoint copy_icons_loop (icons : list string) (st : copy_state)
  : result copy_state :=
  match icons with
  | [] => mret st
  | lucide_icon :: rest =>
      st' ← copy_icons_step st lucide_icon; copy_icons_loop rest st'
  end.

(** [copy_icons()], given the dict loaded from the mapping file.  The
    result is [(copied, failed)] together with the file system the run
    leaves behind. *)
Definition copy_icons (icon_mapping : gmap string string) (s : Fs.state)
  : result (list string * list string * Fs.state) :=
  s ← Fs.makedirs_exist_ok target_dir s;
  let lucide_icons : gset string := map_img icon_mapping in
  st ← copy_icons_loop (Py.sorted (elements lucide_icons)) (s, [], []);
  mret (st.1.2, st.2, st.1.1).

(** [<id>.svg] exists in the source directory. *)
Definition source_exists (s : Fs.state) (lucide_icon : string) : bool :=
  Fs.exists_ s (source_file lucide_icon).

(** An identifier that is a plain file name. *)
Definition plain (lucide_icon : string) : Prop :=
  Py.contains "/" lucide_icon = false.

(** No call of the run raises: the destination directory can be created
    and, once it is there, every source that exists can be copied. *)
Definition copy_icons_can_run (icon_mapping : gmap string string)
    (s : Fs.state) : Prop :=
  ∃ s0, Fs.makedirs_exist_ok target_dir s = Return s0 ∧
    ∀ lucide_icon, lucide_icon ∈ (map_img icon_mapping : gset string) →
      source_exists s0 lucide_icon = true →
      is_Return (Fs.copy2 (source_file lucide_icon)
                   (target_file lucide_icon) s0).

(** ** generate_icon_mapping_cpp.py *)

(** [d[k]] on a dict. *)
Definition getitem {V} (d : gmap string V) (k : string) : result V :=
  match d !! k with
  | Some v => Return v
  | None => Raise KeyError
  end.

(** The dict literal [categories], in the order of its entries. *)
Definition categories : list (string * list string) := [
  ("File Operations", ["file-"]);
  ("Edit Operations", ["edit-"; "copy"; "delete"]);
  ("Playback Controls", ["play"; "pause"; "stop"; "step-"]);
  ("Panel Icons", ["panel-"]);
  ("Zoom and View Controls", ["zoom-"]);
  ("Utility Icons", ["settings"; "help"; "search"; "filter"; "refresh";
                     "add"; "remove"; "warning"; "error"; "info"]);
  ("Arrow and Navigation", ["arrow-"; "chevron-"]);
  ("Node Type Icons", ["node-"]);
  ("Scene Object Icons", ["object-"]);
  ("Transform Icons", ["transform-"]);
  ("Asset Type Icons", ["asset-"]);
  ("Tool Icons", ["tool-"]);
  ("Status Icons", ["status-"; "breakpoint"; "execute"]);
  ("Layout Icons", ["layout-"]);
  ("Visibility and Lock Icons", ["visible"; "hidden"; "locked"; "unlocked"]);
  ("Audio Icons", ["audio-"; "microphone"]);
  ("Localization Icons", ["language"; "translate"; "locale-"]);
  ("Timeline Icons", ["keyframe"; "snap"; "loop"; "easing-"]);
  ("Inspector Icons", ["property-"]);
  ("System Icons", ["external-"; "folder-open"; "import"; "export"; "pin";
                    "unpin"]);
  ("Welcome Icons", ["welcome-"]);
  ("Template Icons", ["template-"])
].

(** [icon_name.startswith(prefix) or icon_name == prefix] *)
Definition prefix_matches (icon_name prefix : string) : bool :=
  Py.startswith icon_name prefix || String.eqb icon_name prefix.

(** The two nested loops of [get_category] over a table: the first
    category one of whose prefixes matches, [Other] when there is none. *)
Fixpoint get_category_in (table : list (string * list string))
    (icon_name : string) : string :=
  match table with
  | [] => "Other"
  | (category, prefixes) :: rest =>
      if existsb (prefix_matches icon_name) prefixes then category
      else get_category_in rest icon_name
  end.

Definition get_category (icon_name : string) : string :=
  get_category_in categories icon_name.

(** The body of [for icon_name in sorted(icon_mapping.keys())]. *)
Definition group_step (grouped : gmap string (list string))
    (icon_name : string) : gmap string (list string) :=
  let category := get_category icon_name in
  let grouped := match grouped !! category with
                 | None => <[category := []]> grouped
                 | Some _ => grouped
                 end in
  alter (λ icon_names, icon_names ++ [icon_name]) category grouped.

Definition group_icons (icon_mapping : gmap string string)
  : gmap string (list string) :=
  fold_left group_step
    (Py.sorted (elements (dom icon_mapping : gset string))) ∅.

Definition cpp_header : list string :=
  ["  // Icon name mapping to Lucide icon files";
   Py.lit "  // Format: m_iconFilePaths['icon-name'] = ':/icons/lucide/icon-file.svg';";
   ""].

Definition assignment_line (icon_name lucide_name : string) : string :=
  Py.lit "  m_iconFilePaths['" +:+ icon_name
  +:+ Py.lit "'] = ':/icons/lucide/" +:+ lucide_name +:+ Py.lit ".svg';".

(** [for icon_name in grouped[category]] *)
Fixpoint emit_icons (icon_mapping : gmap string string)
    (icon_names : list string) (lines : list string)
  : result (list string) :=
  match icon_names with
  | [] => mret lines
  | icon_name :: rest =>
      lucide_name ← getitem icon_mapping icon_name;
      emit_icons icon_mapping rest
        (lines ++ [assignment_line icon_name lucide_name])
  end.

(** [for category in sorted(grouped.keys())] *)
Fixpoint emit_categories (icon_mapping : gmap string string)
    (grouped : gmap string (list string)) (cats : list string)
    (lines : list string) : result (list string) :=
  match cats with
  | [] => mret lines
  | category :: rest =>
      let lines := lines ++ ["  // " +:+ category] in
      icon_names ← getitem grouped category;
      lines ← emit_icons icon_mapping icon_names lines;
      emit_categories icon_mapping grouped rest (lines ++ [""])
  end.

(** The list [lines] at the end of [generate_cpp_mapping]. *)
Definition generate_cpp_lines (icon_mapping : gmap string string)
  : result (list string) :=
  let grouped := group_icons icon_mapping in
  emit_categories icon_mapping grouped
    (Py.sorted (elements (dom grouped : gset string))) cpp_header.

Definition generate_cpp_mapping (icon_mapping : gmap string string)
  : result string :=
  lines ← generate_cpp_lines icon_mapping;
  mret (Py.join Py.nl lines).

(** The emitted text as the description has it: under each category the
    keys of the mapping that fall under it, in sorted order. *)
Definition keys_in (icon_mapping : gmap string string) (category : string)
  : list string :=
  filter (λ icon_name, get_category icon_name = category)
    (Py.sorted (elements (dom icon_mapping : gset string))).

Definition category_block (icon_mapping : gmap string string)
    (category : string) : list string :=
  ("  // " +:+ category)
  :: map (λ icon_name, assignment_line icon_name (icon_mapping !!! icon_name))
       (keys_in icon_mapping category)
  ++ [""].

(** The category of a key as the description has it: the first category
    of the table with a prefix the key starts with or equals, [Other]
    when no prefix of the table matches. *)
Definition category_as_specified (icon_name category : string) : Prop :=
  (∃ before prefixes after,
      categories = before ++ (category, prefixes) :: after ∧
      (∃ p, p ∈ prefixes ∧ prefix_matches icon_name p = true) ∧
      ∀ c' ps' p', (c', ps') ∈ before → p' ∈ ps' →
                   prefix_matches icon_name p' = false)
  ∨ (category = "Other" ∧
     ∀ c' ps' p', (c', ps') ∈ categories → p' ∈ ps' →
                  prefix_matches icon_name p' = false).

(** ** generate_qrc.py *)

Definition qrc_lucide_icons_dir : string := "editor/resources/icons/lucide".
Definition old_icons_dir : string := "editor/resources/icons".

Definition qrc_lucide_icons (w : Os.world) (listing : list string) : list string :=
  Py.sorted (filter (λ f, Py.endswith f ".svg" = true) listing).

Definition qrc_old_icons (w : Os.world) (listing : list string) : list string :=
  Py.sorted
    (filter (λ f, Py.endswith f ".svg"
                  && Os.isfile (Os.nodes w) (Os.join old_icons_dir f) = true)
       listing).

Definition old_entry (icon : string) : string :=
  "        <file>icons/" +:+ icon +:+ "</file>".
Definition lucide_entry (icon : string) : string :=
  "        <file>icons/lucide/" +:+ icon +:+ "</file>".

(** The list [qrc_content] just before it is joined. *)
Definition generate_qrc_lines (w : Os.world) : result (list string) :=
  lucide_listing ← Os.listdir w qrc_lucide_icons_dir;
  let lucide_icons := qrc_lucide_icons w lucide_listing in
  old_listing ← Os.listdir w old_icons_dir;
  let old_icons := qrc_old_icons w old_listing in
  let qrc_content := ["<RCC>"; Py.lit "    <qresource prefix='/'>"] in
  let qrc_content :=
    fold_left (λ acc icon, acc ++ [old_entry icon]) old_icons qrc_content in
  let qrc_content :=
    fold_left (λ acc icon, acc ++ [lucide_entry icon]) lucide_icons
      qrc_content in
  let qrc_content := qrc_content ++ ["    </qresource>"; "</RCC>"; ""] in
  mret qrc_content.

Definition generate_qrc (w : Os.world) : result string :=
  qrc_content ← generate_qrc_lines w;
  mret (Py.join Py.nl qrc_content).

(** The entries of a manifest: its [<file>] lines. *)
Definition is_entry (line : string) : bool :=
  Py.startswith line "        <file>".

Definition qrc_entries (qrc_content : list string) : list string :=
  filter (λ line, is_entry line = true) qrc_content.

(** The directory entries the claim counts: regular files whose name ends
    in [.svg]. *)
Definition svg_regular_files (w : Os.world) (dir : string)
    (listing : list string) : list string :=
  filter (λ f, Py.endswith f ".svg"
               && Os.isfile (Os.nodes w) (Os.join dir f) = true) listing.

Definition svg_names (listing : list string) : list string :=
  filter (λ f, Py.endswith f ".svg" = true) listing.

(** A state of the resources tree in which the copied-icons directory
    holds a directory named [x.svg]. *)
Definition qrc_dir_world : Os.world :=
  Os.World
    {[ "editor/resources/icons" := Os.Dir;
       "editor/resources/icons/lucide" := Os.Dir;
       "editor/resources/icons/lucide/x.svg" := Os.Dir ]}
    (λ path, if String.eqb path "editor/resources/icons" then ["lucide"]
             else if String.eqb path "editor/resources/icons/lucide"
                  then ["x.svg"] else []).

(** A state with one legacy icon, the subdirectory, and two copied icons
    listed out of order. *)
Definition qrc_plain_world : Os.world :=
  Os.World
    {[ "editor/resources/icons" := Os.Dir;
       "editor/resources/icons/old.svg" := Os.File "<svg/>";
       "editor/resources/icons/lucide" := Os.Dir;
       "editor/resources/icons/lucide/b.svg" := Os.File "<svg/>";
       "editor/resources/icons/lucide/a.svg" := Os.File "<svg/>" ]}
    (λ path, if String.eqb path "editor/resources/icons"
             then ["lucide"; "old.svg"]
             else if String.eqb path "editor/resources/icons/lucide"
                  then ["b.svg"; "a.svg"] else []).

(** Two states of the external icon directory: one that holds a file
    which is not an [.svg] file, one that holds [.svg] files only. *)
Definition suggest_png_world : Os.world :=
  Os.World {[ "/tmp/lucide-icons/icons" := Os.Dir ]}
    (λ path, if String.eqb path "/tmp/lucide-icons/icons"
             then ["search.png"; "zoom-in.svg"] else []).

Definition suggest_svg_world : Os.world :=
  Os.World {[ "/tmp/lucide-icons/icons" := Os.Dir ]}
    (λ path, if String.eqb path "/tmp/lucide-icons/icons"
             then ["sword.svg"; "search.svg"; "file-search.svg";
                   "search-check.svg"; "search-code.svg"; "search-slash.svg";
                   "search-x.svg"; "zoom-in.svg"]
             else []).

(** ** generate_assets.py: the silent WAV placeholder *)

(** A Python [bytes] value is a [string], one character per byte. *)
Abbreviation bytes := string (only parsing).

Definition byte_of_Z (v : Z) : ascii := ascii_of_N (Z.to_N (v mod 256)).

(** The [n] low bytes of [v], least significant first. *)
Fixpoint le_bytes (n : nat) (v : Z) : bytes :=
  match n with
  | O => EmptyString
  | S n' => String (byte_of_Z v) (le_bytes n' (v / 256))
  end.

(** The value of a little-endian byte string. *)
Fixpoint le_value (b : bytes) : Z :=
  match b with
  | EmptyString => 0
  | String c b' => Z.of_N (N_of_ascii c) + 256 * le_value b'
  end.

(** The fields of the format [<4sI4s4sIHHIIHH4sI]: [4s] takes four bytes,
    [I] an unsigned 32-bit and [H] an unsigned 16-bit integer; with [<]
    the fields are little-endian and unpadded. *)
Inductive field : Type :=
| F4s (b : string)
| FI (v : Z)
| FH (v : Z).

Fixpoint pad_to (n : nat) (b : bytes) : bytes :=
  match n with
  | O => EmptyString
  | S n' => match b with
            | EmptyString => String zero (pad_to n' EmptyString)
            | String c b' => String c (pad_to n' b')
            end
  end.

(** One field of [struct.pack]: an integer out of the range of its
    format raises [struct.error]. *)
Definition pack_field (f : field) : result bytes :=
  match f with
  | F4s b => Return (pad_to 4 b)
  | FI v => if (0 <=? v)%Z && (v <? 2 ^ 32)%Z then Return (le_bytes 4 v)
            else Raise StructError
  | FH v => if (0 <=? v)%Z && (v <? 2 ^ 16)%Z then Return (le_bytes 2 v)
            else Raise StructError
  end.

Fixpoint struct_pack (fields : list field) : result bytes :=
  match fields with
  | [] => Return EmptyString
  | f :: rest =>
      b ← pack_field f; bs ← struct_pack rest; mret (b +:+ bs)
  end.

(** [b'\x00\x00' * num_samples]: empty when the count is not positive. *)
Definition silent_samples (num_samples : Z) : bytes :=
  String.concat "" (repeat (String zero (String zero "")) (Z.to_nat num_samples)).

(** [int(sample_rate * duration_ms / 1000)].  The product is an exact
    integer, the quotient a float, and [int] truncates toward zero.  For
    every duration on which [struct.pack] does not raise the product is far
    below 2^53 and the float quotient is within 2^-20 of the exact one,
    which is an integer or at least 1/10 away from one, so the truncation
    is that of the exact quotient. *)
Definition wav_num_samples (duration_ms : Z) : Z :=
  let sample_rate := 44100%Z in
  Z.quot (sample_rate * duration_ms) 1000.

Definition wav_header (num_samples : Z) : result bytes :=
  let sample_rate := 44100%Z in
  struct_pack
    [F4s "RIFF";
     FI (36 + num_samples * 2);
     F4s "WAVE";
     F4s "fmt ";
     FI 16;
     FH 1;
     FH 1;
     FI sample_rate;
     FI (sample_rate * 2);
     FH 2;
     FH 16;
     F4s "data";
     FI (num_samples * 2)].

(** The bytes [create_silent_wav] writes: the header, then the samples. *)
Definition silent_wav_bytes (duration_ms : Z) : result bytes :=
  let num_samples := wav_num_samples duration_ms in
  header ← wav_header num_samples;
  let samples := silent_samples num_samples in
  mret (header +:+ samples).

(** [create_silent_wav(path, duration_ms)]: the file is opened only after
    the header has been packed. *)
Definition create_silent_wav (path : string) (duration_ms : Z)
    (fs : Os.filesystem) : result Os.filesystem :=
  data ← silent_wav_bytes duration_ms;
  match fs !! path with
  | Some Os.Dir => Raise IsADirectoryError
  | _ => Return (<[path := Os.File data]> fs)
  end.

(** The slice [b[i:j]]. *)
Definition bytes_slice (i j : nat) (b : bytes) : bytes :=
  String.substring i (j - i) b.

(** The 32 bytes between the RIFF size and the data size: the chunk tags,
    PCM, one channel, 44100 Hz, 88200 bytes per second, block alignment 2,
    16 bits per sample. *)
Definition wav_fixed_fields : string :=
  "WAVEfmt " +:+ le_bytes 4 16 +:+ le_bytes 2 1 +:+ le_bytes 2 1
  +:+ le_bytes 4 44100 +:+ le_bytes 4 88200 +:+ le_bytes 2 2
  +:+ le_bytes 2 16 +:+ "data".

(** The number of samples in the words of the specification:
    44100 * duration_ms / 1000 rounded to the nearest integer. *)
Definition rounded_num_samples (duration_ms : Z) : Z :=
  ((2 * (44100 * duration_ms) + 1000) / 2000)%Z.

(** ** generate_assets.py: character sprites and backgrounds *)

(** [d.get(key, default)] on a dict literal, as an association list. *)
Fixpoint dict_get {V} (d : list (string * V)) (key : string) (default : V) : V :=
  match d with
  | [] => default
  | (k, v) :: rest => if String.eqb k key then v else dict_get rest key default
  end.

Definition eye_shapes : list (string * (string * string)) := [
  ("neutral", (Py.lit "ellipse cx='170' cy='280' rx='15' ry='12'",
               Py.lit "ellipse cx='230' cy='280' rx='15' ry='12'"));
  ("happy", (Py.lit "path d='M155 280 Q170 270 185 280'",
             Py.lit "path d='M215 280 Q230 270 245 280'"));
  ("sad", (Py.lit "path d='M155 275 Q170 285 185 275'",
           Py.lit "path d='M215 275 Q230 285 245 275'"));
  ("surprised", (Py.lit "ellipse cx='170' cy='280' rx='18' ry='18'",
                 Py.lit "ellipse cx='230' cy='280' rx='18' ry='18'"))
].

Definition mouth_shapes : list (string * string) := [
  ("neutral", Py.lit "path d='M175 340 L225 340'");
  ("happy", Py.lit "path d='M170 335 Q200 360 230 335'");
  ("sad", Py.lit "path d='M170 350 Q200 335 230 350'");
  ("surprised", Py.lit "ellipse cx='200' cy='345' rx='15' ry='20'")
].

(** The glasses of Sam. *)
Definition glasses_accent (accent_color : string) : string :=
  Py.lit "
    <circle cx='170' cy='280' r='25' fill='none' stroke='"
  +:+ accent_color
  +:+ Py.lit "' stroke-width='3'/>
    <circle cx='230' cy='280' r='25' fill='none' stroke='"
  +:+ accent_color
  +:+ Py.lit "' stroke-width='3'/>
    <line x1='195' y1='280' x2='205' y2='280' stroke='"
  +:+ accent_color
  +:+ Py.lit "' stroke-width='3'/>
    <line x1='145' y1='280' x2='130' y2='270' stroke='"
  +:+ accent_color
  +:+ Py.lit "' stroke-width='3'/>
    <line x1='255' y1='280' x2='270' y2='270' stroke='"
  +:+ accent_color
  +:+ Py.lit "' stroke-width='3'/>
            ".

(** The tie of the professor. *)
Definition tie_accent (accent_color : string) : string :=
  Py.lit "
    <polygon points='200,500 185,520 200,700 215,520' fill='"
  +:+ accent_color
  +:+ Py.lit "'/>
            ".

(** [accent]: an accent colour that is [None] or empty is falsy. *)
Definition character_accent (name : string) (accent_color : option string)
  : string :=
  match accent_color with
  | None => ""
  | Some c =>
      if String.eqb c "" then ""
      else if String.eqb name "sam" then glasses_accent c
      else if String.eqb name "professor" then tie_accent c
      else ""
  end.

(** The f-string of the sprite. *)
Definition character_svg_template
    (color left_eye right_eye mouth accent : string) : string :=
  Py.lit "<?xml version='1.0' encoding='UTF-8'?>
<svg width='400' height='1080' viewBox='0 0 400 1080' xmlns='http://www.w3.org/2000/svg'>
  <defs>
    <linearGradient id='bodyGrad' x1='0%' y1='0%' x2='0%' y2='100%'>
      <stop offset='0%' style='stop-color:"
  +:+ color
  +:+ Py.lit ";stop-opacity:1' />
      <stop offset='100%' style='stop-color:"
  +:+ color
  +:+ Py.lit ";stop-opacity:0.8' />
    </linearGradient>
  </defs>

  <!-- Body silhouette -->
  <ellipse cx='200' cy='300' rx='100' ry='120' fill='url(#bodyGrad)'/>

  <!-- Shoulders and torso -->
  <path d='M100 380 Q100 450 120 550 L120 900 Q120 1000 200 1080 Q280 1000 280 900 L280 550 Q300 450 300 380 Q250 420 200 420 Q150 420 100 380'
        fill='url(#bodyGrad)'/>

  <!-- Neck -->
  <rect x='175' y='380' width='50' height='60' fill='"
  +:+ color
  +:+ Py.lit "'/>

  <!-- Face features (white/light for contrast) -->
  <"
  +:+ left_eye
  +:+ Py.lit " fill='white'/>
  <"
  +:+ right_eye
  +:+ Py.lit " fill='white'/>
  <"
  +:+ mouth
  +:+ Py.lit " fill='none' stroke='white' stroke-width='4' stroke-linecap='round'/>

  <!-- Accent features -->
  "
  +:+ accent
  +:+ Py.lit "
</svg>
".

Definition create_character_svg (name color expression : string)
    (accent_color : option string) : string :=
  let neutral_eyes := dict_get eye_shapes "neutral" ("", "") in
  let neutral_mouth := dict_get mouth_shapes "neutral" "" in
  let '(left_eye, right_eye) := dict_get eye_shapes expression neutral_eyes in
  let mouth := dict_get mouth_shapes expression neutral_mouth in
  let accent := character_accent name accent_color in
  character_svg_template color left_eye right_eye mouth accent.









(** No suffix of [a] other than the empty one is a prefix of [needle]:
    an occurrence of [needle] cannot start in [a] and run past its end. *)
Fixpoint straddle_free (needle a : string) : bool :=
  match a with
  | EmptyString => true
  | String _ a' => negb (String.prefix a needle) && straddle_free needle a'
  end.

(** Notions used to follow a run of the copier. *)

(** A path component that names an entry: not empty, [.] or [..]. *)
Definition name_ok (c : string) : Prop := c ≠ "" ∧ c ≠ "." ∧ c ≠ "..".

Definition is_dir_at (s : Fs.state) (p : Fs.cpath) : bool :=
  match Fs.node_at s p with Some Os.Dir => true | _ => false end.

(** Every directory on the way from [cur] down the names [ns] is there;
    the last name itself is not looked at. *)
Fixpoint dirs_to (s : Fs.state) (cur : Fs.cpath) (ns : list string) : bool :=
  match ns with
  | [] => true
  | n :: ns' => is_dir_at s cur && dirs_to s (cur ++ [n]) ns'
  end.

(** The canonical paths of the source directory and, below the working
    directory, of the destination. *)
Definition source_cdir : Fs.cpath := ["tmp"; "lucide-icons"; "icons"].
Definition target_rel : list string :=
  ["editor"; "resources"; "icons"; "lucide"].
Definition target_cdir (s : Fs.state) : Fs.cpath := Fs.cwd s ++ target_rel.

Definition source_dirs_ok (s : Fs.state) : bool :=
  is_dir_at s ["tmp"] && is_dir_at s ["tmp"; "lucide-icons"]
  && is_dir_at s source_cdir.

(** The working directory, the destination directory and the directories
    between them are there. *)
Definition chain_ok (s : Fs.state) : bool :=
  is_dir_at s (Fs.cwd s)
  && is_dir_at s (Fs.cwd s ++ ["editor"])
  && is_dir_at s (Fs.cwd s ++ ["editor"; "resources"])
  && is_dir_at s (Fs.cwd s ++ ["editor"; "resources"; "icons"])
  && is_dir_at s (target_cdir s).

(** The canonical paths of the source of an identifier, of its target,
    and of its target when the target path is a directory. *)
Definition src_key (lucide_icon : string) : Fs.cpath :=
  source_cdir ++ [lucide_icon +:+ ".svg"].
Definition dst_key (s : Fs.state) (lucide_icon : string) : Fs.cpath :=
  target_cdir s ++ [lucide_icon +:+ ".svg"].
Definition dst2_key (s : Fs.state) (lucide_icon : string) : Fs.cpath :=
  target_cdir s ++ [lucide_icon +:+ ".svg"; lucide_icon +:+ ".svg"].

(** The paths the copier reads: the source directory, its ancestors and
    the [.svg] entries in it. *)
Definition protected (p : Fs.cpath) : Prop :=
  p ∈ [["tmp"]; ["tmp"; "lucide-icons"]; source_cdir]
  ∨ ∃ lucide_icon, p = src_key lucide_icon.

(** The paths the copier may write: the destination directory, the
    directories between the working directory and it, and the paths
    inside it. *)
Definition chain_keys (s : Fs.state) : list Fs.cpath :=
  [Fs.cwd s ++ ["editor"];
   Fs.cwd s ++ ["editor"; "resources"];
   Fs.cwd s ++ ["editor"; "resources"; "icons"];
   target_cdir s].

Definition in_target (s : Fs.state) (p : Fs.cpath) : Prop :=
  p ∈ chain_keys s ∨ ∃ q, q ≠ [] ∧ p = target_cdir s ++ q.

(** [s'] differs from [s] inside the destination only. *)
Definition same_off_target (s' s : Fs.state) : Prop :=
  Fs.cwd s' = Fs.cwd s ∧
  ∀ p, ¬ in_target s p → Fs.tree s' !! p = Fs.tree s !! p.

(** [s] is reached from [s0] by copies: the same working directory, the
    same nodes outside the destination, the same directories. *)
Definition follows (s0 s : Fs.state) : Prop :=
  Fs.cwd s = Fs.cwd s0 ∧
  (∀ p, ¬ in_target s0 p → Fs.tree s !! p = Fs.tree s0 !! p) ∧
  (∀ p, is_dir_at s p = is_dir_at s0 p).

(** The chain of [target_dir] with the names each of its paths walks. *)
Definition target_chain_items : list (string * list string) :=
  [("editor", ["editor"]);
   ("editor/resources", ["editor"; "resources"]);
   ("editor/resources/icons", ["editor"; "resources"; "icons"]);
   ("editor/resources/icons/lucide", target_rel)].

(** The source of the identifier is a regular file and the place its copy
    goes to is not a directory. *)
Definition copyable (s : Fs.state) (lucide_icon : string) : bool :=
  match Fs.tree s !! src_key lucide_icon with
  | Some (Os.File _) =>
      if is_dir_at s (dst_key s lucide_icon)
      then negb (is_dir_at s (dst2_key s lucide_icon))
      else true
  | _ => false
  end.

Global Instance plain_dec (lucide_icon : string) : Decision (plain lucide_icon) :=
  decide (Py.contains "/" lucide_icon = false).

(** States of the file system used in the examples: the source directory
    is there, the destination is not. *)
Definition source_tree : gmap (list string) Os.node :=
  {[ ["tmp"] := Os.Dir; ["tmp"; "lucide-icons"] := Os.Dir;
     source_cdir := Os.Dir; ["w"] := Os.Dir ]}.

Definition example_mapping : gmap string string :=
  {[ "file-new" := "file-plus"; "file-open" := "folder-open" ]}.

(** [file-plus.svg] is in the source directory, [folder-open.svg] is
    not; the working directory is [/w]. *)
Definition example_state : Fs.state :=
  Fs.State (<[src_key "file-plus" := Os.File "<svg/>"]> source_tree) ["w"].

(** A source directory in which [d.svg] is a directory. *)
Definition dir_mapping : gmap string string := {[ "k" := "d" ]}.

Definition dir_state : Fs.state :=
  Fs.State (<[src_key "d" := Os.Dir]> source_tree) ["w"].

(** The script is started in the source directory, which holds [z.svg],
    and one identifier of the mapping is a path into the destination. *)
Definition nested_mapping : gmap string string :=
  {[ "a" := "z"; "b" := "editor/resources/icons/lucide/z" ]}.

Definition nested_state : Fs.state :=
  Fs.State (<[src_key "z" := Os.File "<svg/>"]> source_tree) source_cdir.

(** The file system the first run leaves in that case. *)
Definition nested_after : Fs.state := Eval vm_compute in
  match copy_icons nested_mapping nested_state with
  | Return (_, _, s') => s'
  | Raise _ => nested_state
  end.

(** [a.svg] is in the source directory, which is the working directory,
    and a second identifier names the place its copy goes to. *)
Definition shadow_mapping : gmap string string :=
  {[ "k1" := "a"; "k2" := "editor/resources/icons/lucide/a" ]}.

Definition shadow_state : Fs.state :=
  Fs.State (<[src_key "a" := Os.File "<svg/>"]> source_tree) source_cdir.
(** ** Facts about the string operations *)

Section StringFacts.

Lemma app_cons_str (x : ascii) (a b : string) :
  String x a +:+ b = String x (a +:+ b).
Proof. reflexivity. Qed.

Lemma app_nil_l_str (s : string) : "" +:+ s = s.
Proof. reflexivity. Qed.

Lemma app_nil_r_str (s : string) : s +:+ "" = s.
Proof.
  induction s as [|c s IH]; [done|]. by rewrite app_cons_str, IH.
Qed.

Lemma app_assoc_str (a b c : string) : (a +:+ b) +:+ c = a +:+ (b +:+ c).
Proof.
  induction a as [|x a IH]; [done|]. by rewrite !app_cons_str, IH.
Qed.

Lemma length_app_str (a b : string) :
  String.length (a +:+ b) = String.length a + String.length b.
Proof.
  induction a as [|x a IH]; [done|].
  rewrite app_cons_str. cbn [String.length]. by rewrite IH.
Qed.

Lemma prefix_spec (p s : string) :
  String.prefix p s = true <-> exists t, s = p +:+ t.
Proof.
  revert s. induction p as [|c p IH]; intros s.
  - destruct s; cbn; split; eauto.
  - destruct s as [|d s]; cbn.
    + split; [done|]. intros [t Ht]. discriminate.
    + destruct (ascii_dec c d) as [->|Hne].
      * rewrite IH. split; intros [t Ht]; exists t.
        -- by rewrite Ht.
        -- by injection Ht.
      * split; [done|]. intros [t Ht]. injection Ht. congruence.
Qed.

Lemma startswith_spec (s p : string) :
  Py.startswith s p = true <-> exists t, s = p +:+ t.
Proof. apply prefix_spec. Qed.

Lemma endswith_spec (s suf : string) :
  Py.endswith s suf = true <-> exists t, s = t +:+ suf.
Proof.
  induction s as [|c s IH]; cbn [Py.endswith].
  - destruct (String.eqb_spec "" suf) as [<-|Hne].
    + split; [by exists ""|done].
    + split; [done|]. intros [[|d t] Ht].
      * rewrite app_nil_l_str in Ht. congruence.
      * rewrite app_cons_str in Ht. discriminate.
  - destruct (String.eqb_spec (String c s) suf) as [<-|Hne].
    + split; [by exists ""|done].
    + rewrite IH. split.
      * intros [t ->]. by exists (String c t).
      * intros [[|d t] Ht].
        -- rewrite app_nil_l_str in Ht. congruence.
        -- rewrite app_cons_str in Ht. injection Ht as -> ->. by exists t.
Qed.

Lemma contains_spec (needle hay : string) :
  Py.contains needle hay = true <->
  exists pre post, hay = pre +:+ needle +:+ post.
Proof.
  induction hay as [|c hay IH]; cbn [Py.contains].
  - destruct (String.prefix needle "") eqn:Hp.
    + apply prefix_spec in Hp as [t Ht]. split; [|done].
      intros _. by exists "", t.
    + split; [done|]. intros [[|d pre] [post Ht]].
      * rewrite app_nil_l_str in Ht.
        assert (String.prefix needle "" = true); [|congruence].
        apply prefix_spec. by exists post.
      * rewrite app_cons_str in Ht. discriminate.
  - destruct (String.prefix needle (String c hay)) eqn:Hp.
    + apply prefix_spec in Hp as [t Ht]. split; [|done].
      intros _. by exists "", t.
    + rewrite IH. split.
      * intros (pre & post & ->). by exists (String c pre), post.
      * intros ([|d pre] & post & Ht).
        -- rewrite app_nil_l_str in Ht.
           assert (String.prefix needle (String c hay) = true); [|congruence].
           apply prefix_spec. by exists post.
        -- rewrite app_cons_str in Ht. injection Ht as -> ->.
           by exists pre, post.
Qed.

Lemma contains_app_mid (a needle b : string) :
  Py.contains needle (a +:+ needle +:+ b) = true.
Proof. apply contains_spec. by exists a, b. Qed.

End StringFacts.

(** ** check_icons_exist: the found/missing partition *)

Section CheckIcons.

Variables (fs : Os.filesystem) (dir : string).

Lemma check_icons_fold (table found missing : icon_table) :
  fold_left (check_icons_step fs dir) table (found, missing) =
  (found ++ filter (λ e, icon_exists fs dir e = true) table,
   missing ++ filter (λ e, icon_exists fs dir e = false) table).
Proof.
  revert found missing.
  induction table as [|[current_name lucide_name] table IH];
    intros found missing.
  - by rewrite !app_nil_r.
  - cbn [fold_left]. rewrite !filter_cons.
    change (check_icons_step fs dir (found, missing)
              (current_name, lucide_name))
      with (if icon_exists fs dir (current_name, lucide_name)
            then (found ++ [(current_name, lucide_name)], missing)
            else (found, missing ++ [(current_name, lucide_name)])).
    destruct (icon_exists fs dir (current_name, lucide_name)); rewrite IH.
    + rewrite decide_True by done. rewrite decide_False by done.
      by rewrite <- app_assoc.
    + rewrite decide_False by done. rewrite decide_True by done.
      by rewrite <- app_assoc.
Qed.

Lemma check_icons_found (table : icon_table) :
  (check_icons_exist table fs dir).1 =
  filter (λ e, icon_exists fs dir e = true) table.
Proof. unfold check_icons_exist. by rewrite check_icons_fold. Qed.

Lemma check_icons_missing (table : icon_table) :
  (check_icons_exist table fs dir).2 =
  filter (λ e, icon_exists fs dir e = false) table.
Proof. unfold check_icons_exist. by rewrite check_icons_fold. Qed.

End CheckIcons.

(** C1.  For every table and every file-system state, [check_icons_exist]
    puts each entry in [found] when [<external_identifier>.svg] exists under
    the directory and in [missing] otherwise: the two lists are the two
    filters of the table, no entry is in both, together they are a
    permutation of the table (each entry as often as the table has it, so
    once for the items of a dict), and each list is a subsequence of the
    table in the table's order. *)
Theorem check_icons_exist_partition
    (table : icon_table) (fs : Os.filesystem) (dir : string) :
  let found := (check_icons_exist table fs dir).1 in
  let missing := (check_icons_exist table fs dir).2 in
  found = filter (λ e, icon_exists fs dir e = true) table ∧
  missing = filter (λ e, icon_exists fs dir e = false) table ∧
  (∀ e, e ∈ table →
        (icon_exists fs dir e = true ∧ e ∈ found ∧ e ∉ missing) ∨
        (icon_exists fs dir e = false ∧ e ∈ missing ∧ e ∉ found)) ∧
  found ++ missing ≡ₚ table ∧
  (∀ e, count_occ (prod_eq_dec) found e + count_occ (prod_eq_dec) missing e
        = count_occ (prod_eq_dec) table e) ∧
  found `sublist_of` table ∧
  missing `sublist_of` table.
Proof.
  cbn zeta. rewrite check_icons_found, check_icons_missing.
  assert (Hperm : filter (λ e, icon_exists fs dir e = true) table
                  ++ filter (λ e, icon_exists fs dir e = false) table
                  ≡ₚ table).
  { rewrite <- (filter_app_complement (λ e, icon_exists fs dir e = true) table)
      at 3.
    apply Permutation_app; [done|].
    erewrite list_filter_iff; [done|].
    intros e. cbn. by destruct (icon_exists fs dir e). }
  repeat split.
  - intros e He. destruct (icon_exists fs dir e) eqn:Hex; [left|right].
    + repeat split; [by apply list_elem_of_filter|].
      intros [Hf _]%list_elem_of_filter. congruence.
    + repeat split; [by apply list_elem_of_filter|].
      intros [Hf _]%list_elem_of_filter. congruence.
  - exact Hperm.
  - intros e. rewrite <- count_occ_app.
    by apply Permutation_count_occ.
  - apply sublist_filter.
  - apply sublist_filter.
Qed.

(** ** The result monad *)

Lemma bind_Return {A B} (f : A → result B) (a : A) :
  (Return a ≫= f) = f a.
Proof. reflexivity. Qed.

Lemma bind_mret {A B} (f : A → result B) (a : A) :
  (mret a ≫= f) = f a.
Proof. reflexivity. Qed.

Lemma bind_Return_inv {A B} (f : A → result B) (r : result A) (b : B) :
  (r ≫= f) = Return b → ∃ a, r = Return a ∧ f a = Return b.
Proof. destruct r as [a|e]; [|discriminate]. intros H. by exists a. Qed.

Lemma is_Return_intro {A} (a : A) : is_Return (Return a).
Proof. by exists a. Qed.

Lemma is_Return_Raise {A} (e : exn) : ¬ is_Return (@Raise A e).
Proof. intros [a Ha]. discriminate. Qed.

(** ** [sorted] *)

Lemma sorted_Permutation (xs : list string) : Py.sorted xs ≡ₚ xs.
Proof. apply merge_sort_Permutation. Qed.

Lemma sorted_StronglySorted (xs : list string) :
  StronglySorted String.le (Py.sorted xs).
Proof. apply StronglySorted_merge_sort; apply _. Qed.

Lemma elem_of_sorted (xs : list string) (x : string) :
  x ∈ Py.sorted xs ↔ x ∈ xs.
Proof. by rewrite sorted_Permutation. Qed.

Lemma sorted_NoDup (xs : list string) : NoDup xs → NoDup (Py.sorted xs).
Proof. by rewrite sorted_Permutation. Qed.

Lemma sorted_length (xs : list string) :
  length (Py.sorted xs) = length xs.
Proof. by rewrite sorted_Permutation. Qed.

Lemma StronglySorted_filter {A} (R : relation A) (P : A → Prop)
    `{!∀ x, Decision (P x)} (l : list A) :
  StronglySorted R l → StronglySorted R (filter P l).
Proof.
  induction 1 as [|x l Hs IH Hx]; [constructor|].
  rewrite filter_cons. destruct (decide (P x)); [|done].
  constructor; [done|].
  apply Forall_forall. intros y [_ Hy]%list_elem_of_filter.
  by apply (proj1 (Forall_forall _ _) Hx).
Qed.

(** Any list that is sorted and has the elements of [xs], each once, is
    [sorted(xs)]: the result does not depend on the sorting algorithm. *)
Lemma sorted_unique (xs ys : list string) :
  ys ≡ₚ xs → StronglySorted String.le ys → Py.sorted xs = ys.
Proof.
  intros Hp Hs. apply (StronglySorted_unique String.le).
  - apply sorted_StronglySorted.
  - done.
  - by rewrite sorted_Permutation.
Qed.

(** ** Path strings of the copier *)

Lemma contains_char_cons (c d : ascii) (s : string) :
  Py.contains (String c "") (String d s)
  = Ascii.eqb c d || Py.contains (String c "") s.
Proof.
  cbn [Py.contains String.prefix].
  destruct (ascii_dec c d) as [->|Hne].
  - rewrite Ascii.eqb_refl. by destruct s.
  - by rewrite (proj2 (Ascii.eqb_neq c d) Hne).
Qed.

Lemma contains_char_app (c : ascii) (a b : string) :
  Py.contains (String c "") (a +:+ b)
  = Py.contains (String c "") a || Py.contains (String c "") b.
Proof.
  induction a as [|d a IH].
  - rewrite app_nil_l_str. by destruct b.
  - rewrite app_cons_str, !contains_char_cons, IH. by rewrite orb_assoc.
Qed.

Lemma plain_svg (lucide_icon : string) :
  plain lucide_icon → plain (lucide_icon +:+ ".svg").
Proof. unfold plain. intros H. by rewrite contains_char_app, H. Qed.

Lemma svg_name_ok (lucide_icon : string) : name_ok (lucide_icon +:+ ".svg").
Proof.
  assert (H : (4 ≤ String.length (lucide_icon +:+ ".svg"))%nat)
    by (rewrite length_app_str; cbn; lia).
  split_and!; intros E; rewrite E in H; cbn in H; lia.
Qed.

Lemma plain_not_abs (x : string) : plain x → Py.startswith x "/" = false.
Proof.
  unfold plain, Py.startswith. intros H.
  destruct x as [|c x]; [done|]. cbn [Py.contains] in H.
  by destruct (String.prefix "/" (String c x)).
Qed.

Lemma split_slash_from_plain (acc x : string) :
  plain x → Fs.split_slash_from acc x = [acc +:+ x].
Proof.
  unfold plain. revert acc. induction x as [|c x IH]; intros acc H.
  - by rewrite app_nil_r_str.
  - rewrite contains_char_cons in H. apply orb_false_elim in H as [Hc Hx].
    cbn [Fs.split_slash_from]. rewrite Ascii.eqb_sym, Hc.
    rewrite IH by done. by rewrite app_assoc_str.
Qed.

Lemma source_file_plain (lucide_icon : string) :
  plain lucide_icon →
  source_file lucide_icon
  = "/tmp/lucide-icons/icons/" +:+ (lucide_icon +:+ ".svg").
Proof.
  intros H. unfold source_file, Os.join.
  by rewrite (plain_not_abs _ (plain_svg _ H)).
Qed.

Lemma target_file_plain (lucide_icon : string) :
  plain lucide_icon →
  target_file lucide_icon
  = "editor/resources/icons/lucide/" +:+ (lucide_icon +:+ ".svg").
Proof.
  intros H. unfold target_file, Os.join.
  by rewrite (plain_not_abs _ (plain_svg _ H)).
Qed.

Lemma split_source_file (lucide_icon : string) :
  plain lucide_icon →
  Fs.split_slash (source_file lucide_icon)
  = "" :: source_cdir ++ [lucide_icon +:+ ".svg"].
Proof.
  intros H. rewrite source_file_plain by done.
  change (Fs.split_slash ("/tmp/lucide-icons/icons/" +:+ ?x))
    with ("" :: "tmp" :: "lucide-icons" :: "icons"
             :: Fs.split_slash_from "" x).
  by rewrite (split_slash_from_plain "" _ (plain_svg _ H)).
Qed.

Lemma split_target_file (lucide_icon : string) :
  plain lucide_icon →
  Fs.split_slash (target_file lucide_icon)
  = target_rel ++ [lucide_icon +:+ ".svg"].
Proof.
  intros H. rewrite target_file_plain by done.
  change (Fs.split_slash ("editor/resources/icons/lucide/" +:+ ?x))
    with ("editor" :: "resources" :: "icons" :: "lucide"
             :: Fs.split_slash_from "" x).
  by rewrite (split_slash_from_plain "" _ (plain_svg _ H)).
Qed.

(** ** Path resolution *)

Lemma step_name_dir (s : Fs.state) (cur : Fs.cpath) (c : string) :
  name_ok c → is_dir_at s cur = true → Fs.step s cur c = Return (cur ++ [c]).
Proof.
  intros (H1 & H2 & H3) Hd. unfold Fs.step, is_dir_at in *.
  destruct (Fs.node_at s cur) as [[|]|]; [done| |done].
  rewrite (proj2 (String.eqb_neq c "") H1), (proj2 (String.eqb_neq c ".") H2),
    (proj2 (String.eqb_neq c "..") H3). done.
Qed.

Lemma step_not_dir (s : Fs.state) (cur : Fs.cpath) (c : string) :
  is_dir_at s cur = false → ∃ e, Fs.step s cur c = Raise e.
Proof.
  unfold Fs.step, is_dir_at. destruct (Fs.node_at s cur) as [[|]|];
    [by eexists|done|by eexists].
Qed.

Lemma walk_names (s : Fs.state) (ns : list string) :
  ∀ cur, Forall name_ok ns → dirs_to s cur ns = true →
         Fs.walk s cur ns = Return (cur ++ ns).
Proof.
  induction ns as [|n ns IH]; intros cur Hok Hd.
  - by rewrite app_nil_r.
  - apply Forall_cons in Hok as [Hn Hok]. cbn [dirs_to] in Hd.
    apply andb_prop in Hd as [Hc Hd]. cbn [Fs.walk].
    rewrite step_name_dir, bind_Return by done.
    rewrite IH by done. by rewrite <- app_assoc.
Qed.

Lemma walk_names_Raise (s : Fs.state) (ns : list string) :
  ∀ cur, Forall name_ok ns → dirs_to s cur ns = false →
         ∃ e, Fs.walk s cur ns = Raise e.
Proof.
  induction ns as [|n ns IH]; intros cur Hok Hd; [done|].
  apply Forall_cons in Hok as [Hn Hok]. cbn [dirs_to] in Hd. cbn [Fs.walk].
  destruct (is_dir_at s cur) eqn:Hc.
  - rewrite step_name_dir, bind_Return by done. by apply IH.
  - destruct (step_not_dir s cur n Hc) as [e ->]. by exists e.
Qed.

Lemma source_names_ok (lucide_icon : string) :
  Forall name_ok (source_cdir ++ [lucide_icon +:+ ".svg"]).
Proof.
  apply Forall_app. split.
  - repeat constructor; done.
  - repeat constructor; apply svg_name_ok.
Qed.

Lemma target_names_ok (lucide_icon : string) :
  Forall name_ok (target_rel ++ [lucide_icon +:+ ".svg"]).
Proof.
  apply Forall_app. split.
  - repeat constructor; done.
  - repeat constructor; apply svg_name_ok.
Qed.

Lemma dirs_to_source (s : Fs.state) (x : string) :
  dirs_to s [] (source_cdir ++ [x]) = source_dirs_ok s.
Proof.
  unfold source_dirs_ok. cbn. by rewrite !andb_true_r, !andb_assoc.
Qed.

Lemma dirs_to_target (s : Fs.state) (x : string) :
  dirs_to s (Fs.cwd s) (target_rel ++ [x]) = chain_ok s.
Proof.
  unfold chain_ok, target_cdir, target_rel. cbn [app dirs_to].
  rewrite <- !app_assoc. cbn [app]. by rewrite !andb_true_r, !andb_assoc.
Qed.

Lemma resolve_source (s : Fs.state) (lucide_icon : string) :
  plain lucide_icon →
  Fs.resolve s (source_file lucide_icon)
  = Fs.walk s [] (source_cdir ++ [lucide_icon +:+ ".svg"]).
Proof.
  intros H. unfold Fs.resolve. rewrite split_source_file by done.
  rewrite source_file_plain by done. reflexivity.
Qed.

Lemma resolve_target (s : Fs.state) (lucide_icon : string) :
  plain lucide_icon →
  Fs.resolve s (target_file lucide_icon)
  = Fs.walk s (Fs.cwd s) (target_rel ++ [lucide_icon +:+ ".svg"]).
Proof.
  intros H. unfold Fs.resolve. rewrite split_target_file by done.
  rewrite target_file_plain by done. reflexivity.
Qed.

Lemma node_at_app (s : Fs.state) (p q : Fs.cpath) :
  q ≠ [] → Fs.node_at s (p ++ q) = Fs.tree s !! (p ++ q).
Proof.
  intros Hq. unfold Fs.node_at.
  destruct (p ++ q) eqn:E; [|done].
  apply app_eq_nil in E as [_ ->]. done.
Qed.

Lemma node_at_src_key (s : Fs.state) (lucide_icon : string) :
  Fs.node_at s (src_key lucide_icon) = Fs.tree s !! src_key lucide_icon.
Proof. by apply node_at_app. Qed.

Lemma node_at_dst_key (s : Fs.state) (lucide_icon : string) :
  Fs.node_at s (dst_key s lucide_icon) = Fs.tree s !! dst_key s lucide_icon.
Proof. by apply node_at_app. Qed.

Lemma node_at_dst2_key (s : Fs.state) (lucide_icon : string) :
  Fs.node_at s (dst2_key s lucide_icon) = Fs.tree s !! dst2_key s lucide_icon.
Proof. by apply node_at_app. Qed.

Lemma stat_source (s : Fs.state) (lucide_icon : string) :
  plain lucide_icon → source_dirs_ok s = true →
  Fs.stat s (source_file lucide_icon)
  = match Fs.tree s !! src_key lucide_icon with
    | Some n => Return n
    | None => Raise FileNotFoundError
    end.
Proof.
  intros Hp Hd. unfold Fs.stat. rewrite resolve_source by done.
  rewrite walk_names;
    [|apply source_names_ok|by rewrite dirs_to_source].
  rewrite bind_Return. cbn [app]. fold (src_key lucide_icon).
  by rewrite node_at_src_key.
Qed.

Lemma source_exists_plain (s : Fs.state) (lucide_icon : string) :
  plain lucide_icon →
  source_exists s lucide_icon
  = source_dirs_ok s
    && bool_decide (is_Some (Fs.tree s !! src_key lucide_icon)).
Proof.
  intros Hp. unfold source_exists, Fs.exists_.
  destruct (source_dirs_ok s) eqn:Hd.
  - rewrite stat_source by done.
    destruct (Fs.tree s !! src_key lucide_icon) as [n|].
    + by rewrite bool_decide_true.
    + rewrite bool_decide_false; [done|]. by intros [? ?].
  - unfold Fs.stat. rewrite resolve_source by done.
    destruct (walk_names_Raise s (source_cdir ++ [lucide_icon +:+ ".svg"]) [])
      as [e ->]; [apply source_names_ok|by rewrite dirs_to_source|done].
Qed.

Lemma isdir_target (s : Fs.state) (lucide_icon : string) :
  plain lucide_icon → chain_ok s = true →
  Fs.isdir s (target_file lucide_icon) = is_dir_at s (dst_key s lucide_icon).
Proof.
  intros Hp Hc. unfold Fs.isdir, Fs.stat, is_dir_at.
  rewrite resolve_target by done.
  rewrite walk_names; [|apply target_names_ok|by rewrite dirs_to_target].
  rewrite bind_Return, app_assoc. fold (target_cdir s).
  fold (dst_key s lucide_icon).
  by destruct (Fs.node_at s (dst_key s lucide_icon)) as [[|]|].
Qed.

Lemma basename_cons (c : ascii) (p : string) :
  Os.basename (String c p) =
  if Py.contains "/" (String c p) then Os.basename p else String c p.
Proof. reflexivity. Qed.

Lemma contains_slash_head (x : string) : Py.contains "/" ("/" +:+ x) = true.
Proof.
  change ("/" +:+ x) with (String "/" x). by rewrite contains_char_cons.
Qed.

Lemma basename_app_slash (a x : string) :
  Os.basename (a +:+ "/" +:+ x) = Os.basename x.
Proof.
  induction a as [|c a IH].
  - rewrite app_nil_l_str.
    change (Os.basename ("/" +:+ x))
      with (if Py.contains "/" ("/" +:+ x) then Os.basename x
            else String "/" x).
    by rewrite contains_slash_head.
  - rewrite app_cons_str, basename_cons, contains_char_cons, contains_char_app.
    rewrite contains_slash_head, IH. by rewrite !orb_true_r.
Qed.

Lemma basename_plain (x : string) : plain x → Os.basename x = x.
Proof.
  unfold plain. intros H. destruct x as [|c x]; [done|].
  by rewrite basename_cons, H.
Qed.

Lemma basename_source_file (lucide_icon : string) :
  plain lucide_icon →
  Os.basename (source_file lucide_icon) = lucide_icon +:+ ".svg".
Proof.
  intros H. unfold source_file, Os.join.
  rewrite (plain_not_abs _ (plain_svg _ H)).
  change (String.eqb lucide_icons_dir "" || Py.endswith lucide_icons_dir "/")
    with false. cbv iota.
  rewrite basename_app_slash. by apply basename_plain, plain_svg.
Qed.

Lemma endswith_svg_slash (a : string) : Py.endswith (a +:+ ".svg") "/" = false.
Proof.
  induction a as [|c a IH]; [reflexivity|].
  rewrite app_cons_str. cbn [Py.endswith].
  destruct (String.eqb_spec (String c (a +:+ ".svg")) "/") as [E|_]; [|done].
  exfalso. apply (f_equal String.length) in E. cbn [String.length] in E.
  rewrite length_app_str in E. cbn in E. lia.
Qed.

Lemma join_redirect (lucide_icon : string) :
  plain lucide_icon →
  Os.join (target_file lucide_icon) (Os.basename (source_file lucide_icon))
  = "editor/resources/icons/lucide/"
    +:+ ((lucide_icon +:+ ".svg") +:+ "/" +:+ (lucide_icon +:+ ".svg")).
Proof.
  intros H. rewrite basename_source_file by done. unfold Os.join.
  rewrite (plain_not_abs _ (plain_svg _ H)).
  rewrite target_file_plain by done.
  rewrite <- (app_assoc_str "editor/resources/icons/lucide/" lucide_icon ".svg")
    at 2.
  rewrite endswith_svg_slash, orb_false_r.
  change (String.eqb ("editor/resources/icons/lucide/" +:+ ?x) "") with false.
  cbv iota. by rewrite !app_assoc_str.
Qed.

Lemma split_slash_from_app_slash (acc a rest : string) :
  plain a →
  Fs.split_slash_from acc (a +:+ "/" +:+ rest)
  = (acc +:+ a) :: Fs.split_slash_from "" rest.
Proof.
  unfold plain. revert acc. induction a as [|c a IH]; intros acc H.
  - by rewrite app_nil_r_str.
  - rewrite contains_char_cons in H. apply orb_false_elim in H as [Hc Ha].
    rewrite app_cons_str. cbn [Fs.split_slash_from].
    rewrite Ascii.eqb_sym, Hc, IH by done. by rewrite app_assoc_str.
Qed.

Lemma resolve_redirect (s : Fs.state) (lucide_icon : string) :
  plain lucide_icon →
  Fs.resolve s
    (Os.join (target_file lucide_icon) (Os.basename (source_file lucide_icon)))
  = Fs.walk s (Fs.cwd s)
      (target_rel ++ [lucide_icon +:+ ".svg"; lucide_icon +:+ ".svg"]).
Proof.
  intros H. rewrite join_redirect by done. unfold Fs.resolve.
  change (String.eqb ("editor/resources/icons/lucide/" +:+ ?x) "") with false.
  change (Py.startswith ("editor/resources/icons/lucide/" +:+ ?x) "/")
    with false.
  cbv iota.
  change (Fs.split_slash ("editor/resources/icons/lucide/" +:+ ?x))
    with ("editor" :: "resources" :: "icons" :: "lucide"
             :: Fs.split_slash_from "" x).
  rewrite split_slash_from_app_slash by (by apply plain_svg).
  rewrite split_slash_from_plain by (by apply plain_svg). reflexivity.
Qed.

Lemma redirect_names_ok (lucide_icon : string) :
  Forall name_ok
    (target_rel ++ [lucide_icon +:+ ".svg"; lucide_icon +:+ ".svg"]).
Proof.
  apply Forall_app. split.
  - repeat constructor; done.
  - repeat constructor; apply svg_name_ok.
Qed.

Lemma dirs_to_redirect (s : Fs.state) (lucide_icon : string) :
  dirs_to s (Fs.cwd s)
    (target_rel ++ [lucide_icon +:+ ".svg"; lucide_icon +:+ ".svg"])
  = chain_ok s && is_dir_at s (dst_key s lucide_icon).
Proof.
  unfold chain_ok, dst_key, target_cdir, target_rel. cbn [app dirs_to].
  rewrite <- !app_assoc. cbn [app]. by rewrite !andb_true_r, !andb_assoc.
Qed.

(** ** [shutil.copy2] on the paths of the copier *)

Lemma node_at_nonempty (s : Fs.state) (p : Fs.cpath) :
  p ≠ [] → Fs.node_at s p = Fs.tree s !! p.
Proof. by destruct p. Qed.

Lemma copyfile_keys (s : Fs.state) (src dst : string) (ks kd : Fs.cpath) :
  Fs.resolve s src = Return ks → Fs.resolve s dst = Return kd →
  ks ≠ kd → ks ≠ [] → kd ≠ [] →
  Fs.copyfile src dst s
  = match Fs.tree s !! ks with
    | None => Raise FileNotFoundError
    | Some Os.Dir => Raise IsADirectoryError
    | Some (Os.File data) =>
        match Fs.tree s !! kd with
        | Some Os.Dir => Raise IsADirectoryError
        | _ => Return (Fs.write_node s kd (Os.File data))
        end
    end.
Proof.
  intros Hs Hd Hne Hks Hkd. unfold Fs.copyfile, Fs.samefile.
  rewrite Hs, Hd, (bool_decide_false _ Hne), bind_Return.
  rewrite (node_at_nonempty s ks) by done.
  destruct (Fs.tree s !! ks) as [[data|]|];
    destruct (Fs.node_at s kd) as [[|]|] eqn:Ekd;
    rewrite ?bind_Return, ?Ekd; rewrite <- ?(node_at_nonempty s kd) by done;
    rewrite ?Ekd; reflexivity.
Qed.

Lemma svg_name_ne (lucide_icon n : string) :
  Py.endswith n ".svg" = false → lucide_icon +:+ ".svg" ≠ n.
Proof.
  intros Hn <-.
  assert (Py.endswith (lucide_icon +:+ ".svg") ".svg" = true)
    by (apply endswith_spec; by exists lucide_icon).
  congruence.
Qed.

Lemma src_key_ne_dst_key (s : Fs.state) (a b : string) :
  src_key a ≠ dst_key s b.
Proof.
  unfold src_key, dst_key, target_cdir, source_cdir, target_rel. intros E.
  apply (f_equal reverse) in E. rewrite !reverse_app in E.
  cbn in E. discriminate E.
Qed.

Lemma src_key_ne_dst2_key (s : Fs.state) (a b : string) :
  src_key a ≠ dst2_key s b.
Proof.
  unfold src_key, dst2_key, target_cdir, source_cdir, target_rel. intros E.
  apply (f_equal reverse) in E. rewrite !reverse_app in E.
  cbn in E. injection E as _ E _. by apply (svg_name_ne b "icons").
Qed.

Lemma copy2_plain (s : Fs.state) (lucide_icon : string) :
  plain lucide_icon → chain_ok s = true → source_dirs_ok s = true →
  Fs.copy2 (source_file lucide_icon) (target_file lucide_icon) s
  = match Fs.tree s !! src_key lucide_icon with
    | None => Raise FileNotFoundError
    | Some Os.Dir => Raise IsADirectoryError
    | Some (Os.File data) =>
        if is_dir_at s (dst_key s lucide_icon)
        then match Fs.tree s !! dst2_key s lucide_icon with
             | Some Os.Dir => Raise IsADirectoryError
             | _ => Return (Fs.write_node s (dst2_key s lucide_icon)
                              (Os.File data))
             end
        else match Fs.tree s !! dst_key s lucide_icon with
             | Some Os.Dir => Raise IsADirectoryError
             | _ => Return (Fs.write_node s (dst_key s lucide_icon)
                              (Os.File data))
             end
    end.
Proof.
  intros Hp Hc Hd. unfold Fs.copy2. rewrite isdir_target by done.
  assert (Hsrc : Fs.resolve s (source_file lucide_icon)
                 = Return (src_key lucide_icon)).
  { rewrite resolve_source by done.
    apply walk_names; [apply source_names_ok|by rewrite dirs_to_source]. }
  assert (Hk : src_key lucide_icon ≠ []) by done.
  destruct (is_dir_at s (dst_key s lucide_icon)) eqn:Hdir.
  - assert (Hdst : Fs.resolve s
                     (Os.join (target_file lucide_icon)
                        (Os.basename (source_file lucide_icon)))
                   = Return (dst2_key s lucide_icon)).
    { rewrite resolve_redirect by done.
      rewrite walk_names;
        [|apply redirect_names_ok|by rewrite dirs_to_redirect, Hc, Hdir].
      by rewrite app_assoc. }
    assert (Hk2 : dst2_key s lucide_icon ≠ [])
      by (unfold dst2_key; by destruct (target_cdir s)).
    rewrite (copyfile_keys s _ _ _ _ Hsrc Hdst
               (src_key_ne_dst2_key s _ _) Hk Hk2).
    by destruct (Fs.tree s !! src_key lucide_icon) as [[|]|].
  - assert (Hdst : Fs.resolve s (target_file lucide_icon)
                   = Return (dst_key s lucide_icon)).
    { rewrite resolve_target by done.
      rewrite walk_names;
        [|apply target_names_ok|by rewrite dirs_to_target].
      by rewrite app_assoc. }
    assert (Hk2 : dst_key s lucide_icon ≠ [])
      by (unfold dst_key; by destruct (target_cdir s)).
    rewrite (copyfile_keys s _ _ _ _ Hsrc Hdst
               (src_key_ne_dst_key s _ _) Hk Hk2).
    by destruct (Fs.tree s !! src_key lucide_icon) as [[|]|].
Qed.

(** ** What the copier reads and what it writes *)

Lemma protected_length (p : Fs.cpath) : protected p → (length p ≤ 4)%nat.
Proof.
  intros [Hin|[x ->]].
  - repeat (apply elem_of_cons in Hin as [->|Hin]; [cbn; lia|]).
    by apply elem_of_nil in Hin.
  - cbn. lia.
Qed.

Lemma not_svg_name (n : string) :
  Py.endswith n ".svg" = false → ∀ x, n ≠ x +:+ ".svg".
Proof. intros Hn x E. by apply (svg_name_ne x n). Qed.

Lemma chain_key_not_protected (s : Fs.state) (p : Fs.cpath) :
  p ∈ chain_keys s → ¬ protected p.
Proof.
  unfold chain_keys, target_cdir, target_rel, protected, src_key, source_cdir.
  intros Hp [Hin|[x E]].
  - repeat (apply elem_of_cons in Hp as [->|Hp]);
      [..|by apply elem_of_nil in Hp];
      repeat (apply elem_of_cons in Hin as [Hin|Hin]);
      try (by apply elem_of_nil in Hin);
      apply (f_equal reverse) in Hin; rewrite !reverse_app in Hin;
      cbn in Hin; discriminate Hin.
  - repeat (apply elem_of_cons in Hp as [->|Hp]);
      [..|by apply elem_of_nil in Hp];
      apply (f_equal reverse) in E; rewrite !reverse_app in E;
      cbn in E; injection E as E _; revert E; by apply not_svg_name.
Qed.

Lemma in_target_not_protected (s : Fs.state) (p : Fs.cpath) :
  in_target s p → ¬ protected p.
Proof.
  intros [Hp|(q & Hq & ->)]; [by apply (chain_key_not_protected s)|].
  intros H%protected_length. unfold target_cdir, target_rel in H.
  rewrite !length_app in H. cbn in H. destruct q; [done|]. cbn in H. lia.
Qed.

Lemma dst_key_in_target (s : Fs.state) (lucide_icon : string) :
  in_target s (dst_key s lucide_icon).
Proof. right. exists [lucide_icon +:+ ".svg"]. by split. Qed.

Lemma dst2_key_in_target (s : Fs.state) (lucide_icon : string) :
  in_target s (dst2_key s lucide_icon).
Proof.
  right. exists [lucide_icon +:+ ".svg"; lucide_icon +:+ ".svg"]. by split.
Qed.

Lemma in_target_cwd (s s' : Fs.state) (p : Fs.cpath) :
  Fs.cwd s' = Fs.cwd s → in_target s' p ↔ in_target s p.
Proof.
  intros E. unfold in_target, chain_keys, target_cdir. by rewrite E.
Qed.

Lemma follows_refl (s : Fs.state) : follows s s.
Proof. by split_and!. Qed.

Lemma follows_source_dirs (s0 s : Fs.state) :
  follows s0 s → source_dirs_ok s = source_dirs_ok s0.
Proof. intros (_ & _ & Hd). unfold source_dirs_ok. by rewrite !Hd. Qed.

Lemma follows_chain_ok (s0 s : Fs.state) :
  follows s0 s → chain_ok s = chain_ok s0.
Proof.
  intros (Hc & _ & Hd). unfold chain_ok, target_cdir. by rewrite !Hd, Hc.
Qed.

Lemma follows_src_key (s0 s : Fs.state) (lucide_icon : string) :
  follows s0 s →
  Fs.tree s !! src_key lucide_icon = Fs.tree s0 !! src_key lucide_icon.
Proof.
  intros (_ & Ho & _). apply Ho. intros Hin.
  apply (in_target_not_protected _ _ Hin). right. by eexists.
Qed.

Lemma follows_source_exists (s0 s : Fs.state) (lucide_icon : string) :
  plain lucide_icon → follows s0 s →
  source_exists s lucide_icon = source_exists s0 lucide_icon.
Proof.
  intros Hp Hf. rewrite !source_exists_plain by done.
  by rewrite (follows_source_dirs s0 s), (follows_src_key s0 s).
Qed.

Lemma source_exists_dirs (s : Fs.state) (lucide_icon : string) :
  plain lucide_icon → source_exists s lucide_icon = true →
  source_dirs_ok s = true.
Proof.
  intros Hp. rewrite source_exists_plain by done. by intros [? _]%andb_prop.
Qed.

Lemma is_dir_at_tree (s : Fs.state) (p : Fs.cpath) :
  p ≠ [] →
  is_dir_at s p = match Fs.tree s !! p with Some Os.Dir => true | _ => false end.
Proof. intros Hp. unfold is_dir_at. by rewrite node_at_nonempty. Qed.

Lemma dst_key_nonempty (s : Fs.state) (lucide_icon : string) :
  dst_key s lucide_icon ≠ [].
Proof. unfold dst_key. by destruct (target_cdir s). Qed.

Lemma dst2_key_nonempty (s : Fs.state) (lucide_icon : string) :
  dst2_key s lucide_icon ≠ [].
Proof. unfold dst2_key. by destruct (target_cdir s). Qed.

Lemma copy2_Return_write (s s1 : Fs.state) (lucide_icon : string) :
  plain lucide_icon → chain_ok s = true → source_dirs_ok s = true →
  Fs.copy2 (source_file lucide_icon) (target_file lucide_icon) s = Return s1 →
  ∃ data k,
    Fs.tree s !! src_key lucide_icon = Some (Os.File data) ∧
    (k = dst_key s lucide_icon ∨ k = dst2_key s lucide_icon) ∧
    k ≠ [] ∧ is_dir_at s k = false ∧
    s1 = Fs.write_node s k (Os.File data).
Proof.
  intros Hp Hc Hd. rewrite copy2_plain by done.
  destruct (Fs.tree s !! src_key lucide_icon) as [[data|]|]; [|done..].
  destruct (is_dir_at s (dst_key s lucide_icon)) eqn:Hdir.
  - destruct (Fs.tree s !! dst2_key s lucide_icon) as [[|]|] eqn:E;
      [|done|]; intros [= <-]; exists data, (dst2_key s lucide_icon);
      (split_and!; [done|by right|apply dst2_key_nonempty| |done]);
      rewrite is_dir_at_tree by apply dst2_key_nonempty; by rewrite E.
  - destruct (Fs.tree s !! dst_key s lucide_icon) as [[|]|] eqn:E;
      [|done|]; intros [= <-]; exists data, (dst_key s lucide_icon);
      by split_and!; [|left|apply dst_key_nonempty| |].
Qed.

Lemma copy2_copyable (s : Fs.state) (lucide_icon : string) :
  plain lucide_icon → chain_ok s = true → source_dirs_ok s = true →
  is_Return (Fs.copy2 (source_file lucide_icon) (target_file lucide_icon) s)
  ↔ copyable s lucide_icon = true.
Proof.
  intros Hp Hc Hd. rewrite copy2_plain by done. unfold copyable.
  destruct (Fs.tree s !! src_key lucide_icon) as [[data|]|];
    [|split; [by intros [? ?]|done]..].
  destruct (is_dir_at s (dst_key s lucide_icon)) eqn:Hdir.
  - rewrite (is_dir_at_tree s (dst2_key s lucide_icon))
      by apply dst2_key_nonempty.
    destruct (Fs.tree s !! dst2_key s lucide_icon) as [[|]|];
      split; try done; try (by intros [? ?]); by eexists.
  - rewrite (is_dir_at_tree s (dst_key s lucide_icon)) in Hdir
      by apply dst_key_nonempty.
    destruct (Fs.tree s !! dst_key s lucide_icon) as [[|]|];
      split; try done; by eexists.
Qed.

Lemma follows_copyable (s0 s : Fs.state) (lucide_icon : string) :
  follows s0 s → copyable s lucide_icon = copyable s0 lucide_icon.
Proof.
  intros Hf. unfold copyable. rewrite (follows_src_key s0 s) by done.
  destruct Hf as (Hc & _ & Hd). unfold dst_key, dst2_key, target_cdir.
  by rewrite !Hd, Hc.
Qed.

Lemma is_dir_at_write_File (s : Fs.state) (k p : Fs.cpath) (data : string) :
  k ≠ [] → is_dir_at s k = false →
  is_dir_at (Fs.write_node s k (Os.File data)) p = is_dir_at s p.
Proof.
  intros Hk Hd. destruct p as [|n p]; [done|].
  rewrite !is_dir_at_tree by done. rewrite is_dir_at_tree in Hd by done.
  cbn [Fs.write_node Fs.tree].
  destruct (decide (k = n :: p)) as [->|Hne].
  - rewrite lookup_insert_eq. by destruct (Fs.tree s !! (n :: p)) as [[|]|].
  - by rewrite lookup_insert_ne.
Qed.

Lemma copy2_follows (s0 s s1 : Fs.state) (lucide_icon : string) :
  plain lucide_icon → chain_ok s = true → source_dirs_ok s = true →
  follows s0 s →
  Fs.copy2 (source_file lucide_icon) (target_file lucide_icon) s = Return s1 →
  follows s0 s1.
Proof.
  intros Hp Hc Hd (Hcwd & Hoff & Hdirs) Hcopy.
  apply copy2_Return_write in Hcopy as (data & k & _ & Hk & Hne & Hkd & ->);
    [|done..].
  split_and!.
  - done.
  - intros p Hp0. cbn [Fs.write_node Fs.tree]. rewrite lookup_insert_ne.
    + by apply Hoff.
    + intros <-. apply Hp0. apply (in_target_cwd s0 s); [done|].
      destruct Hk as [->| ->];
        [apply dst_key_in_target|apply dst2_key_in_target].
  - intros p. rewrite is_dir_at_write_File by done. apply Hdirs.
Qed.

(** ** The copy loop *)

Lemma copy_icons_step_unfold (s : Fs.state) (copied failed : list string)
    (lucide_icon : string) :
  copy_icons_step (s, copied, failed) lucide_icon =
  if source_exists s lucide_icon
  then s' ← Fs.copy2 (source_file lucide_icon) (target_file lucide_icon) s;
       mret (s', copied ++ [lucide_icon], failed)
  else mret (s, copied, failed ++ [lucide_icon]).
Proof. reflexivity. Qed.

Lemma copy2_transfer (s0 s : Fs.state) (lucide_icon : string) :
  plain lucide_icon → chain_ok s0 = true → source_dirs_ok s0 = true →
  follows s0 s →
  is_Return (Fs.copy2 (source_file lucide_icon) (target_file lucide_icon) s0)
  ↔ is_Return (Fs.copy2 (source_file lucide_icon) (target_file lucide_icon) s).
Proof.
  intros Hp Hc Hd Hf.
  rewrite !copy2_copyable; try done.
  - by rewrite (follows_copyable s0 s).
  - by rewrite (follows_chain_ok s0 s).
  - by rewrite (follows_source_dirs s0 s).
Qed.

Lemma copy_icons_loop_Return (icons : list string) :
  ∀ (s0 s : Fs.state) (copied failed : list string),
    Forall plain icons → chain_ok s0 = true → follows s0 s →
    (∀ x, x ∈ icons → source_exists s0 x = true →
          is_Return (Fs.copy2 (source_file x) (target_file x) s0)) →
    ∃ s', copy_icons_loop icons (s, copied, failed) =
            Return (s',
                    copied ++ filter (λ x, source_exists s0 x = true) icons,
                    failed ++ filter (λ x, source_exists s0 x = false) icons)
          ∧ follows s0 s'.
Proof.
  induction icons as [|x icons IH]; intros s0 s copied failed Hpl Hc Hf Hok.
  - exists s. cbn [copy_icons_loop]. by rewrite !app_nil_r.
  - apply Forall_cons in Hpl as [Hx Hpl].
    cbn [copy_icons_loop]. rewrite copy_icons_step_unfold, !filter_cons.
    rewrite (follows_source_exists s0 s) by done.
    destruct (source_exists s0 x) eqn:Hex.
    + pose proof (source_exists_dirs s0 x Hx Hex) as Hd.
      destruct (proj1 (copy2_transfer s0 s x Hx Hc Hd Hf)) as [s1 Hcopy];
        [apply Hok; [by left|done]|].
      rewrite Hcopy, bind_Return, bind_mret. cbn beta.
      destruct (IH s0 s1 (copied ++ [x]) failed) as (s' & Hl & Hf');
        [done|done| |intros y Hy; apply Hok; by right|].
      { apply (copy2_follows s0 s s1 x); try done.
        - by rewrite (follows_chain_ok s0 s).
        - by rewrite (follows_source_dirs s0 s). }
      exists s'. rewrite Hl.
      rewrite decide_True by done. rewrite decide_False by done.
      by rewrite <- app_assoc.
    + rewrite bind_mret. cbn beta.
      destruct (IH s0 s copied (failed ++ [x])) as (s' & Hl & Hf');
        [done|done|done|intros y Hy; apply Hok; by right|].
      exists s'. rewrite Hl.
      rewrite decide_False by done. rewrite decide_True by done.
      by rewrite <- app_assoc.
Qed.

Lemma copy_icons_loop_Return_inv (icons : list string) :
  ∀ (s0 s : Fs.state) (copied failed : list string) (st' : copy_state),
    Forall plain icons → chain_ok s0 = true → follows s0 s →
    copy_icons_loop icons (s, copied, failed) = Return st' →
    ∀ x, x ∈ icons → source_exists s0 x = true →
         is_Return (Fs.copy2 (source_file x) (target_file x) s0).
Proof.
  induction icons as [|x icons IH];
    intros s0 s copied failed st' Hpl Hc Hf Hl y Hy Hex.
  - by apply elem_of_nil in Hy.
  - apply Forall_cons in Hpl as [Hx Hpl]. cbn [copy_icons_loop] in Hl.
    apply bind_Return_inv in Hl as (st1 & Hstep & Hl).
    rewrite copy_icons_step_unfold in Hstep.
    rewrite (follows_source_exists s0 s) in Hstep by done.
    destruct (source_exists s0 x) eqn:Hx0.
    + apply bind_Return_inv in Hstep as (s1 & Hcopy & [= <-]).
      pose proof (source_exists_dirs s0 x Hx Hx0) as Hd.
      apply elem_of_cons in Hy as [->|Hy].
      * apply (copy2_transfer s0 s x); try done. by exists s1.
      * apply (IH s0 s1 _ _ _ Hpl Hc) with (x := y) in Hl; try done.
        apply (copy2_follows s0 s s1 x); try done.
        -- by rewrite (follows_chain_ok s0 s).
        -- by rewrite (follows_source_dirs s0 s).
    + injection Hstep as <-.
      apply elem_of_cons in Hy as [->|Hy]; [congruence|].
      by apply (IH s0 s _ _ _ Hpl Hc Hf Hl).
Qed.

(** ** Creating the destination directory *)

Lemma ancestors_target_dir :
  Fs.ancestors_from "" target_dir
  = ["editor"; "editor/resources"; "editor/resources/icons";
     "editor/resources/icons/lucide"].
Proof. vm_compute. reflexivity. Qed.

Lemma dirs_to_snoc (s : Fs.state) (ns : list string) :
  ∀ cur n, dirs_to s cur (ns ++ [n])
           = dirs_to s cur ns && is_dir_at s (cur ++ ns).
Proof.
  induction ns as [|m ns IH]; intros cur n; cbn [app dirs_to].
  - by rewrite app_nil_r, andb_true_r.
  - rewrite IH, <- app_assoc. cbn [app]. by rewrite andb_assoc.
Qed.

Lemma dirs_to_head (s : Fs.state) (cur : Fs.cpath) (ns : list string) :
  ns ≠ [] → dirs_to s cur ns = true → is_dir_at s cur = true.
Proof. destruct ns; [done|]. cbn [dirs_to]. by intros _ [? _]%andb_prop. Qed.

Lemma mkdir_names (s : Fs.state) (p : string) (ns : list string) :
  Fs.resolve s p = Fs.walk s (Fs.cwd s) ns → Forall name_ok ns → ns ≠ [] →
  (dirs_to s (Fs.cwd s) ns = true ∧
   Fs.mkdir p s = match Fs.tree s !! (Fs.cwd s ++ ns) with
                  | Some _ => Raise FileExistsError
                  | None => Return (Fs.write_node s (Fs.cwd s ++ ns) Os.Dir)
                  end ∧
   Fs.isdir s p = is_dir_at s (Fs.cwd s ++ ns))
  ∨ (dirs_to s (Fs.cwd s) ns = false ∧ (∃ e, Fs.mkdir p s = Raise e) ∧
     Fs.isdir s p = false).
Proof.
  intros Hres Hok Hne. unfold Fs.mkdir, Fs.isdir, Fs.stat. rewrite Hres.
  assert (Hk : Fs.cwd s ++ ns ≠ []) by (by destruct (Fs.cwd s), ns).
  destruct (dirs_to s (Fs.cwd s) ns) eqn:Hd.
  - left. rewrite walk_names, !bind_Return by done.
    unfold is_dir_at. rewrite node_at_nonempty by done.
    split_and!; [done|done|].
    by destruct (Fs.tree s !! (Fs.cwd s ++ ns)) as [[|]|].
  - right. destruct (walk_names_Raise s ns (Fs.cwd s) Hok Hd) as [e ->].
    split_and!; [done|by exists e|done].
Qed.

Lemma is_dir_at_write_Dir (s : Fs.state) (k q : Fs.cpath) :
  is_dir_at s q = true → is_dir_at (Fs.write_node s k Os.Dir) q = true.
Proof.
  destruct q as [|n q]; [done|]. rewrite !is_dir_at_tree by done.
  cbn [Fs.write_node Fs.tree]. destruct (decide (k = n :: q)) as [->|Hne].
  - by rewrite lookup_insert_eq.
  - by rewrite lookup_insert_ne.
Qed.

Lemma makedirs_chain_cons (s s0 : Fs.state) (p : string) (rest : list string)
    (ns : list string) :
  Fs.resolve s p = Fs.walk s (Fs.cwd s) ns → Forall name_ok ns → ns ≠ [] →
  Fs.makedirs_chain (p :: rest) s = Return s0 →
  ∃ s1, Fs.makedirs_chain rest s1 = Return s0 ∧
        is_dir_at s (Fs.cwd s) = true ∧
        Fs.cwd s1 = Fs.cwd s ∧
        is_dir_at s1 (Fs.cwd s ++ ns) = true ∧
        (∀ q, q ≠ Fs.cwd s ++ ns → Fs.tree s1 !! q = Fs.tree s !! q) ∧
        (∀ q, is_dir_at s q = true → is_dir_at s1 q = true).
Proof.
  intros Hres Hok Hne. cbn [Fs.makedirs_chain].
  assert (Hk : Fs.cwd s ++ ns ≠ []) by (by destruct (Fs.cwd s), ns).
  destruct (mkdir_names s p ns Hres Hok Hne)
    as [(Hd & -> & ->)|(Hd & [e ->] & ->)]; [|done].
  pose proof (dirs_to_head s _ ns Hne Hd) as Hcwd.
  destruct (Fs.tree s !! (Fs.cwd s ++ ns)) as [nd|] eqn:Hn.
  - destruct (is_dir_at s (Fs.cwd s ++ ns)) eqn:Hdir; [|done].
    intros Hrest. exists s. by split_and!.
  - intros Hrest. exists (Fs.write_node s (Fs.cwd s ++ ns) Os.Dir).
    split_and!; [done|done|done| | |].
    + rewrite is_dir_at_tree by done. cbn [Fs.write_node Fs.tree].
      by rewrite lookup_insert_eq.
    + intros q Hq. cbn [Fs.write_node Fs.tree]. by rewrite lookup_insert_ne.
    + intros q. apply is_dir_at_write_Dir.
Qed.

Lemma makedirs_chain_cons_dir (s : Fs.state) (p : string)
    (rest : list string) (ns : list string) :
  Fs.resolve s p = Fs.walk s (Fs.cwd s) ns → Forall name_ok ns → ns ≠ [] →
  dirs_to s (Fs.cwd s) ns = true → is_dir_at s (Fs.cwd s ++ ns) = true →
  Fs.makedirs_chain (p :: rest) s = Fs.makedirs_chain rest s.
Proof.
  intros Hres Hok Hne Hd Hdir. cbn [Fs.makedirs_chain].
  assert (Hk : Fs.cwd s ++ ns ≠ []) by (by destruct (Fs.cwd s), ns).
  destruct (mkdir_names s p ns Hres Hok Hne)
    as [(_ & -> & ->)|(Hd' & _)]; [|congruence].
  rewrite Hdir. rewrite is_dir_at_tree in Hdir by done.
  by destruct (Fs.tree s !! (Fs.cwd s ++ ns)).
Qed.

Lemma chain_ok_spec (s : Fs.state) :
  chain_ok s = true ↔
  is_dir_at s (Fs.cwd s) = true ∧
  is_dir_at s (Fs.cwd s ++ ["editor"]) = true ∧
  is_dir_at s (Fs.cwd s ++ ["editor"; "resources"]) = true ∧
  is_dir_at s (Fs.cwd s ++ ["editor"; "resources"; "icons"]) = true ∧
  is_dir_at s (target_cdir s) = true.
Proof. unfold chain_ok. rewrite !andb_true_iff. tauto. Qed.

Lemma makedirs_chain_ok (s : Fs.state) :
  chain_ok s = true → Fs.makedirs_exist_ok target_dir s = Return s.
Proof.
  intros (H0 & H1 & H2 & H3 & H4)%chain_ok_spec.
  unfold target_cdir, target_rel in H4.
  unfold Fs.makedirs_exist_ok. rewrite ancestors_target_dir.
  rewrite (makedirs_chain_cons_dir s _ _ ["editor"]);
    [|reflexivity|repeat constructor; done|done| |done].
  2:{ cbn [dirs_to]. by rewrite H0. }
  rewrite (makedirs_chain_cons_dir s _ _ ["editor"; "resources"]);
    [|reflexivity|repeat constructor; done|done| |done].
  2:{ cbn [dirs_to]. by rewrite H0, H1. }
  rewrite (makedirs_chain_cons_dir s _ _ ["editor"; "resources"; "icons"]);
    [|reflexivity|repeat constructor; done|done| |done].
  2:{ cbn [dirs_to]. rewrite <- !app_assoc. cbn [app]. by rewrite H0, H1, H2. }
  rewrite (makedirs_chain_cons_dir s _ _
             ["editor"; "resources"; "icons"; "lucide"]);
    [|reflexivity|repeat constructor; done|done| |done].
  2:{ cbn [dirs_to]. rewrite <- !app_assoc. cbn [app].
      by rewrite H0, H1, H2, H3. }
  reflexivity.
Qed.

Lemma makedirs_Return (s s0 : Fs.state) :
  Fs.makedirs_exist_ok target_dir s = Return s0 →
  Fs.cwd s0 = Fs.cwd s ∧ chain_ok s0 = true ∧
  (∀ q, q ∉ chain_keys s → Fs.tree s0 !! q = Fs.tree s !! q) ∧
  (∀ q, is_dir_at s q = true → is_dir_at s0 q = true).
Proof.
  unfold Fs.makedirs_exist_ok. rewrite ancestors_target_dir. intros H.
  apply (makedirs_chain_cons s s0 _ _ ["editor"]) in H
    as (s1 & H & D0 & C1 & D1 & T1 & M1);
    [|reflexivity|repeat constructor; done|done].
  apply (makedirs_chain_cons s1 s0 _ _ ["editor"; "resources"]) in H
    as (s2 & H & _ & C2 & D2 & T2 & M2);
    [|reflexivity|repeat constructor; done|done].
  apply (makedirs_chain_cons s2 s0 _ _ ["editor"; "resources"; "icons"]) in H
    as (s3 & H & _ & C3 & D3 & T3 & M3);
    [|reflexivity|repeat constructor; done|done].
  apply (makedirs_chain_cons s3 s0 _ _
           ["editor"; "resources"; "icons"; "lucide"]) in H
    as (s4 & H & _ & C4 & D4 & T4 & M4);
    [|reflexivity|repeat constructor; done|done].
  cbn [Fs.makedirs_chain] in H. injection H as <-.
  rewrite C3 in *. rewrite C2 in *. rewrite C1 in *.
  split_and!.
  - done.
  - apply chain_ok_spec. unfold target_cdir, target_rel. rewrite C4.
    split_and!; auto.
  - intros q Hq. unfold chain_keys, target_cdir, target_rel in Hq.
    rewrite !elem_of_cons in Hq.
    rewrite T4, T3, T2, T1; [done|intros ->; apply Hq; auto..].
  - auto.
Qed.

(** ** A run of [copy_icons] *)

Lemma is_dir_at_same_tree (s s' : Fs.state) (q : Fs.cpath) :
  Fs.tree s' !! q = Fs.tree s !! q → is_dir_at s' q = is_dir_at s q.
Proof.
  destruct q as [|n q]; [done|]. rewrite !is_dir_at_tree by done.
  by intros ->.
Qed.

Lemma protected_not_chain_key (s : Fs.state) (q : Fs.cpath) :
  protected q → q ∉ chain_keys s.
Proof. intros Hp Hq. by apply (chain_key_not_protected s q). Qed.

Lemma makedirs_source_exists (s s0 : Fs.state) (lucide_icon : string) :
  plain lucide_icon → Fs.makedirs_exist_ok target_dir s = Return s0 →
  source_exists s0 lucide_icon = source_exists s lucide_icon.
Proof.
  intros Hp (_ & _ & Ht & _)%makedirs_Return.
  rewrite !source_exists_plain by done. unfold source_dirs_ok.
  rewrite !(is_dir_at_same_tree s s0), Ht; [done|..];
    try apply Ht; apply protected_not_chain_key.
  - right. by exists lucide_icon.
  - left. set_solver.
  - left. set_solver.
  - left. set_solver.
Qed.

Lemma makedirs_same_off_target (s s0 s' : Fs.state) :
  Fs.makedirs_exist_ok target_dir s = Return s0 → follows s0 s' →
  same_off_target s' s.
Proof.
  intros (Hc & _ & Ht & _)%makedirs_Return (Hc' & Hoff & _).
  split; [congruence|]. intros p Hp.
  rewrite Hoff by (by rewrite (in_target_cwd s s0)).
  apply Ht. intros Hin. apply Hp. by left.
Qed.

Lemma elem_of_icons (icon_mapping : gmap string string) (x : string) :
  x ∈ Py.sorted (elements (map_img icon_mapping : gset string))
  ↔ ∃ k, icon_mapping !! k = Some x.
Proof. by rewrite elem_of_sorted, elem_of_elements, elem_of_map_img. Qed.

Lemma icons_plain (icon_mapping : gmap string string) :
  map_Forall (λ _ x, plain x) icon_mapping →
  Forall plain (Py.sorted (elements (map_img icon_mapping : gset string))).
Proof.
  intros Hpl. apply Forall_forall. intros x [k Hk]%elem_of_icons.
  by apply (Hpl k).
Qed.

Lemma filter_source_exists (s0 s : Fs.state) (b : bool) (l : list string) :
  Forall (λ x, source_exists s0 x = source_exists s x) l →
  filter (λ x, source_exists s0 x = b) l
  = filter (λ x, source_exists s x = b) l.
Proof.
  induction 1 as [|x l Hx _ IH]; [done|].
  rewrite !filter_cons, IH, Hx. done.
Qed.

Lemma copy_icons_unfold (icon_mapping : gmap string string) (s : Fs.state) :
  copy_icons icon_mapping s =
  s0 ← Fs.makedirs_exist_ok target_dir s;
  st ← copy_icons_loop
         (Py.sorted (elements (map_img icon_mapping : gset string)))
         (s0, [], []);
  mret (st.1.2, st.2, st.1.1).
Proof. reflexivity. Qed.

Lemma copy_icons_run (icon_mapping : gmap string string) (s : Fs.state) :
  map_Forall (λ _ x, plain x) icon_mapping →
  copy_icons_can_run icon_mapping s →
  ∃ s0 s',
    Fs.makedirs_exist_ok target_dir s = Return s0 ∧ follows s0 s' ∧
    copy_icons icon_mapping s =
      Return (filter (λ x, source_exists s x = true)
                (Py.sorted (elements (map_img icon_mapping : gset string))),
              filter (λ x, source_exists s x = false)
                (Py.sorted (elements (map_img icon_mapping : gset string))),
              s').
Proof.
  intros Hpl (s0 & Hmk & Hok). pose proof (icons_plain _ Hpl) as Hpl'.
  pose proof (makedirs_Return _ _ Hmk) as (_ & Hc & _).
  destruct (copy_icons_loop_Return
              (Py.sorted (elements (map_img icon_mapping : gset string)))
              s0 s0 [] [] Hpl' Hc (follows_refl s0)) as (s' & Hl & Hf).
  { intros x [k Hk]%elem_of_icons. apply Hok.
    apply elem_of_map_img. by exists k. }
  exists s0, s'. split_and!; [done|done|].
  assert (Hex : Forall (λ x, source_exists s0 x = source_exists s x)
                  (Py.sorted (elements (map_img icon_mapping : gset string)))).
  { apply Forall_forall. intros x Hx.
    apply makedirs_source_exists; [|done].
    by apply (proj1 (Forall_forall _ _) Hpl'). }
  rewrite copy_icons_unfold, Hmk, bind_Return, Hl, bind_Return. cbn [fst snd app]. unfold mret, result_ret.
  by rewrite !(filter_source_exists s0 s _ _ Hex).
Qed.

Lemma copy_icons_Return_can_run (icon_mapping : gmap string string)
    (s : Fs.state) :
  map_Forall (λ _ x, plain x) icon_mapping →
  is_Return (copy_icons icon_mapping s) →
  copy_icons_can_run icon_mapping s.
Proof.
  intros Hpl [r Hr]. pose proof (icons_plain _ Hpl) as Hpl'.
  rewrite copy_icons_unfold in Hr.
  apply bind_Return_inv in Hr as (s0 & Hmk & Hr).
  apply bind_Return_inv in Hr as (st & Hl & _).
  pose proof (makedirs_Return _ _ Hmk) as (_ & Hc & _).
  exists s0. split; [done|]. intros x [k Hk]%elem_of_map_img Hex.
  apply (copy_icons_loop_Return_inv _ s0 s0 [] [] st Hpl' Hc
           (follows_refl s0) Hl); [|done].
  apply elem_of_icons. by exists k.
Qed.

Lemma is_Return_check {A} (r : result A) :
  match r with Return _ => true | Raise _ => false end = true → is_Return r.
Proof. destruct r as [a|e]; [by exists a|done]. Qed.

Lemma copy_icons_can_run_again (icon_mapping : gmap string string)
    (s0 s' : Fs.state) :
  map_Forall (λ _ x, plain x) icon_mapping →
  chain_ok s0 = true → follows s0 s' →
  (∀ x, x ∈ (map_img icon_mapping : gset string) →
        source_exists s0 x = true →
        is_Return (Fs.copy2 (source_file x) (target_file x) s0)) →
  copy_icons_can_run icon_mapping s'.
Proof.
  intros Hpl Hc Hf Hok. exists s'. split.
  - apply makedirs_chain_ok. by rewrite (follows_chain_ok s0 s').
  - intros x Hx Hex. apply elem_of_map_img in Hx as Hk. destruct Hk as [k Hk].
    pose proof (Hpl k x Hk) as Hp. cbn beta in Hp.
    rewrite (follows_source_exists s0 s') in Hex by done.
    apply (copy2_transfer s0 s' x); try done.
    + by apply (source_exists_dirs s0 x).
    + by apply Hok.
Qed.

(** ** The claims about [copy_icons] *)

(** A closed equation between a run and its result, by evaluation. *)
Ltac by_run :=
  match goal with |- _ = ?r => vm_cast_no_check (eq_refl r) end.

(** C2, as stated, fails.  The claim lets the source directory be in any
    state; in [dir_state] the entry [d.svg] of the source directory is a
    directory, [os.path.exists] answers [True] for it, [shutil.copy2]
    raises [IsADirectoryError], and [copy_icons] returns nothing. *)
Lemma copy_icons_raises_on_directory :
  source_exists dir_state "d" = true ∧
  copy_icons dir_mapping dir_state = Raise IsADirectoryError.
Proof. split; vm_compute; reflexivity. Qed.

Lemma copy_icons_can_run_check (icon_mapping : gmap string string)
    (s : Fs.state) :
  match Fs.makedirs_exist_ok target_dir s with
  | Return s0 =>
      forallb (λ x, implb (source_exists s0 x)
                      match Fs.copy2 (source_file x) (target_file x) s0 with
                      | Return _ => true
                      | Raise _ => false
                      end)
        (elements (map_img icon_mapping : gset string))
  | Raise _ => false
  end = true →
  copy_icons_can_run icon_mapping s.
Proof.
  destruct (Fs.makedirs_exist_ok target_dir s) as [s0|e] eqn:Hmk;
    [|intros [=]].
  intros H. exists s0. split; [done|]. intros x Hx Hex.
  rewrite forallb_forall in H. apply is_Return_check.
  specialize (H x). rewrite Hex in H. apply H.
  apply list_elem_of_In, elem_of_elements, Hx.
Qed.

(** A run in which no call made in the state after [os.makedirs] would
    raise can still raise when an identifier is not a plain file name:
    in [shadow_state] the copy of [a.svg] lands where the source of the
    second identifier is looked for, and the copy of that one has no
    directory to go to. *)
Lemma copy_icons_raises_on_nested_identifier :
  copy_icons_can_run shadow_mapping shadow_state ∧
  copy_icons shadow_mapping shadow_state = Raise FileNotFoundError.
Proof.
  split; [|vm_compute; reflexivity].
  apply copy_icons_can_run_check. vm_compute. reflexivity.
Qed.

(** C2 (amended).  Let every identifier of the mapping be a plain file
    name (no [/] in it), and let the run meet nothing that raises: the
    destination directory can be created and every source that exists can
    be copied.  Then [copy_icons] returns [(copied, failed)], where
    [copied] holds exactly the values of the mapping whose [<id>.svg]
    exists in the source directory at the start and [failed] exactly the
    values for which it does not; each value occurs once, however many
    keys map to it, both lists ascend in the lexicographic order, and the
    length of [copied] is the number of distinct values that exist. *)
Theorem copy_icons_partition
    (icon_mapping : gmap string string) (s : Fs.state) :
  map_Forall (λ _ x, plain x) icon_mapping →
  copy_icons_can_run icon_mapping s →
  ∃ copied failed s',
    copy_icons icon_mapping s = Return (copied, failed, s') ∧
    (∀ x, x ∈ copied ↔
          (∃ k, icon_mapping !! k = Some x) ∧ source_exists s x = true) ∧
    (∀ x, x ∈ failed ↔
          (∃ k, icon_mapping !! k = Some x) ∧ source_exists s x = false) ∧
    NoDup copied ∧ NoDup failed ∧
    StronglySorted String.le copied ∧ StronglySorted String.le failed ∧
    length copied =
      size (filter (λ x, source_exists s x = true)
              (map_img icon_mapping : gset string)).
Proof.
  intros Hpl Hrun.
  destruct (copy_icons_run _ _ Hpl Hrun) as (s0 & s' & _ & _ & Heq).
  set (icons := Py.sorted (elements (map_img icon_mapping : gset string))) in *.
  assert (Hin : ∀ x, x ∈ icons ↔ ∃ k, icon_mapping !! k = Some x)
    by apply elem_of_icons.
  assert (Hnd : NoDup icons) by apply sorted_NoDup, NoDup_elements.
  eexists _, _, s'. split; [exact Heq|]. split_and!.
  - intros x. rewrite list_elem_of_filter, Hin. tauto.
  - intros x. rewrite list_elem_of_filter, Hin. tauto.
  - by apply NoDup_filter.
  - by apply NoDup_filter.
  - apply StronglySorted_filter, sorted_StronglySorted.
  - apply StronglySorted_filter, sorted_StronglySorted.
  - unfold size, set_size. cbn. apply Permutation_length.
    apply NoDup_Permutation; [by apply NoDup_filter|apply NoDup_elements|].
    intros x. rewrite list_elem_of_filter, Hin, elem_of_elements,
      elem_of_filter, elem_of_map_img. tauto.
Qed.

Lemma copy_icons_partition_witness :
  ∃ copied failed s',
    copy_icons example_mapping example_state = Return (copied, failed, s') ∧
    (∀ x, x ∈ copied ↔
          (∃ k, example_mapping !! k = Some x)
          ∧ source_exists example_state x = true) ∧
    (∀ x, x ∈ failed ↔
          (∃ k, example_mapping !! k = Some x)
          ∧ source_exists example_state x = false) ∧
    NoDup copied ∧ NoDup failed ∧
    StronglySorted String.le copied ∧ StronglySorted String.le failed ∧
    length copied =
      size (filter (λ x, source_exists example_state x = true)
              (map_img example_mapping : gset string)).
Proof.
  assert (Hpl : map_Forall (λ _ x, plain x) example_mapping).
  { apply (bool_decide_unpack _). vm_compute. exact I. }
  apply (copy_icons_partition example_mapping example_state Hpl).
  apply copy_icons_can_run_check. vm_compute. reflexivity.
Defined.

(** C8, as stated, fails.  The script is started in the source directory
    and the mapping has the identifiers [z] and
    [editor/resources/icons/lucide/z].  The first run returns
    [(["z"], ["editor/resources/icons/lucide/z"])]: its copy of [z.svg]
    is written below the source directory, at the place where the source
    of the other identifier is looked for.  The second run, on the file
    system the first one left, finds that source and raises, as the
    directory its copy should go to is not there. *)
Lemma copy_icons_second_run_differs :
  copy_icons nested_mapping nested_state
    = Return (["z"], ["editor/resources/icons/lucide/z"], nested_after) ∧
  copy_icons nested_mapping nested_after = Raise FileNotFoundError.
Proof. split; by_run. Qed.

(** C8 (amended).  Let every identifier of the mapping be a plain file
    name (no [/] in it), and let the first run meet nothing that raises.
    Then the first run returns some [(copied, failed)]; the file system
    it leaves differs from the one it started on only in the destination
    directory, the directories created on the way to it and the paths
    below it; every plain identifier has its source file after the run
    exactly when it had it before; and a second run, started on the file
    system the first one left, returns the same [(copied, failed)]. *)
Theorem copy_icons_idempotent
    (icon_mapping : gmap string string) (s : Fs.state) :
  map_Forall (λ _ x, plain x) icon_mapping →
  copy_icons_can_run icon_mapping s →
  ∃ copied failed s' s'',
    copy_icons icon_mapping s = Return (copied, failed, s') ∧
    same_off_target s' s ∧
    (∀ x, plain x → source_exists s' x = source_exists s x) ∧
    copy_icons icon_mapping s' = Return (copied, failed, s'').
Proof.
  intros Hpl Hrun.
  destruct (copy_icons_run _ _ Hpl Hrun) as (s0 & s' & Hmk & Hf & Heq).
  pose proof (makedirs_Return _ _ Hmk) as (_ & Hc & _).
  assert (Hex : ∀ x, plain x → source_exists s' x = source_exists s x).
  { intros x Hx. rewrite (follows_source_exists s0 s') by done.
    by apply makedirs_source_exists. }
  assert (Hrun' : copy_icons_can_run icon_mapping s').
  { destruct Hrun as (s1 & Hmk1 & Hok). rewrite Hmk in Hmk1.
    injection Hmk1 as <-.
    by apply (copy_icons_can_run_again icon_mapping s0 s'). }
  destruct (copy_icons_run _ _ Hpl Hrun') as (_ & s'' & _ & _ & Heq').
  eexists _, _, s', s''. split; [exact Heq|].
  split; [by apply (makedirs_same_off_target s s0)|].
  split; [exact Hex|].
  rewrite Heq'.
  pose proof (icons_plain _ Hpl) as Hpl'.
  rewrite !(filter_source_exists s' s); [done|..];
    (eapply Forall_impl; [exact Hpl'|]; intros x Hx; by apply Hex).
Qed.

Lemma copy_icons_idempotent_witness :
  ∃ copied failed s' s'',
    copy_icons example_mapping example_state = Return (copied, failed, s') ∧
    same_off_target s' example_state ∧
    (∀ x, plain x → source_exists s' x = source_exists example_state x) ∧
    copy_icons example_mapping s' = Return (copied, failed, s'').
Proof.
  assert (Hpl : map_Forall (λ _ x, plain x) example_mapping).
  { apply (bool_decide_unpack _). vm_compute. exact I. }
  apply (copy_icons_idempotent example_mapping example_state Hpl).
  apply copy_icons_can_run_check. vm_compute. reflexivity.
Defined.

(** ** generate_qrc *)

Lemma fold_left_snoc_map {A B} (f : A → B) (xs : list A) (acc : list B) :
  fold_left (λ acc x, acc ++ [f x]) xs acc = acc ++ (f <$> xs).
Proof.
  revert acc. induction xs as [|x xs IH]; intros acc; cbn [fold_left fmap list_fmap].
  - by rewrite app_nil_r.
  - rewrite IH. by rewrite <- app_assoc.
Qed.

Lemma qrc_entries_old (icons : list string) :
  qrc_entries (old_entry <$> icons) = old_entry <$> icons.
Proof.
  unfold qrc_entries. induction icons as [|x icons IH]; [done|].
  rewrite fmap_cons, filter_cons, IH. by rewrite decide_True.
Qed.

Lemma qrc_entries_lucide (icons : list string) :
  qrc_entries (lucide_entry <$> icons) = lucide_entry <$> icons.
Proof.
  unfold qrc_entries. induction icons as [|x icons IH]; [done|].
  rewrite fmap_cons, filter_cons, IH. by rewrite decide_True.
Qed.

Lemma generate_qrc_lines_eq (w : Os.world) (lucide_listing old_listing : list string) :
  Os.listdir w qrc_lucide_icons_dir = Return lucide_listing →
  Os.listdir w old_icons_dir = Return old_listing →
  generate_qrc_lines w =
  Return (["<RCC>"; Py.lit "    <qresource prefix='/'>"]
          ++ (old_entry <$> qrc_old_icons w old_listing)
          ++ (lucide_entry <$> qrc_lucide_icons w lucide_listing)
          ++ ["    </qresource>"; "</RCC>"; ""]).
Proof.
  intros Hl Ho. unfold generate_qrc_lines.
  rewrite Hl, bind_Return, Ho, bind_Return. cbv zeta.
  rewrite !fold_left_snoc_map. by rewrite <- !app_assoc.
Qed.

(** The claim as stated fails: a directory named [x.svg] in the copied
    icons directory gets an entry, so the manifest has one entry while
    neither directory holds a regular [.svg] file. *)
Lemma generate_qrc_lists_non_regular_entry :
  ∃ qrc_content,
    generate_qrc_lines qrc_dir_world = Return qrc_content ∧
    qrc_entries qrc_content = [lucide_entry "x.svg"] ∧
    Os.isfile (Os.nodes qrc_dir_world)
      (Os.join qrc_lucide_icons_dir "x.svg") = false ∧
    length (qrc_entries qrc_content) ≠
      length (svg_regular_files qrc_dir_world old_icons_dir
                (Os.dir_order qrc_dir_world old_icons_dir))
      + length (svg_regular_files qrc_dir_world qrc_lucide_icons_dir
                  (Os.dir_order qrc_dir_world qrc_lucide_icons_dir)).
Proof.
  eexists. split; [vm_compute; reflexivity|].
  split; [vm_compute; reflexivity|].
  split; [vm_compute; reflexivity|].
  vm_compute. discriminate.
Qed.

(** C4 (amended).  When both directories can be listed, the manifest is the
    two opening lines, one entry per regular file with an [.svg] suffix
    among the immediate children of the legacy directory, then one entry
    per immediate child of the copied-icons directory whose name ends in
    [.svg] (whatever kind of node it is), then the three closing lines;
    each group ascends in the lexicographic order, and the number of
    entries is the sum of the two counts. *)
Theorem generate_qrc_entries
    (w : Os.world) (lucide_listing old_listing : list string) :
  Os.listdir w qrc_lucide_icons_dir = Return lucide_listing →
  Os.listdir w old_icons_dir = Return old_listing →
  let old_icons := Py.sorted (svg_regular_files w old_icons_dir old_listing) in
  let lucide_icons := Py.sorted (svg_names lucide_listing) in
  let qrc_content :=
    ["<RCC>"; Py.lit "    <qresource prefix='/'>"]
      ++ (old_entry <$> old_icons) ++ (lucide_entry <$> lucide_icons)
      ++ ["    </qresource>"; "</RCC>"; ""] in
  generate_qrc w = Return (Py.join Py.nl qrc_content) ∧
  generate_qrc_lines w = Return qrc_content ∧
  qrc_entries qrc_content =
    (old_entry <$> old_icons) ++ (lucide_entry <$> lucide_icons) ∧
  StronglySorted String.le old_icons ∧
  StronglySorted String.le lucide_icons ∧
  old_icons ≡ₚ svg_regular_files w old_icons_dir old_listing ∧
  lucide_icons ≡ₚ svg_names lucide_listing ∧
  length (qrc_entries qrc_content) =
    length (svg_regular_files w old_icons_dir old_listing)
    + length (svg_names lucide_listing).
Proof.
  intros Hl Ho old_icons lucide_icons qrc_content.
  assert (Hlines : generate_qrc_lines w = Return qrc_content)
    by apply (generate_qrc_lines_eq w _ _ Hl Ho).
  assert (Hent : qrc_entries qrc_content =
                 (old_entry <$> old_icons) ++ (lucide_entry <$> lucide_icons)).
  { unfold qrc_content, qrc_entries. rewrite !filter_app.
    fold (qrc_entries (old_entry <$> old_icons)).
    fold (qrc_entries (lucide_entry <$> lucide_icons)).
    rewrite qrc_entries_old, qrc_entries_lucide.
    change (filter _ ["<RCC>"; _]) with (@nil string).
    change (filter _ ["    </qresource>"; _; _]) with (@nil string).
    by rewrite app_nil_r. }
  split_and!.
  - unfold generate_qrc. by rewrite Hlines.
  - done.
  - done.
  - apply sorted_StronglySorted.
  - apply sorted_StronglySorted.
  - apply sorted_Permutation.
  - apply sorted_Permutation.
  - rewrite Hent, length_app, !length_fmap.
    unfold old_icons, lucide_icons. by rewrite !sorted_length.
Qed.

Lemma generate_qrc_entries_witness :
  generate_qrc_lines qrc_plain_world =
    Return ["<RCC>"; Py.lit "    <qresource prefix='/'>";
            "        <file>icons/old.svg</file>";
            "        <file>icons/lucide/a.svg</file>";
            "        <file>icons/lucide/b.svg</file>";
            "    </qresource>"; "</RCC>"; ""].
Proof.
  destruct (generate_qrc_entries qrc_plain_world ["b.svg"; "a.svg"]
              ["lucide"; "old.svg"]) as (_ & H & _).
  - vm_compute. reflexivity.
  - vm_compute. reflexivity.
  - rewrite H. vm_compute. reflexivity.
Defined.

(** ** suggest_alternatives *)

Lemma suggest_step_lookup_ne (icons : list string)
    (alternatives : gmap string (list string)) (entry : string * string)
    (c : string) :
  c ≠ entry.1 → suggest_step icons alternatives entry !! c = alternatives !! c.
Proof.
  destruct entry as [current_name lucide_name]. cbn [fst]. intros Hne.
  unfold suggest_step. destruct (candidates icons lucide_name); [done|].
  by rewrite lookup_insert_ne.
Qed.

Lemma suggest_step_lookup_eq (icons : list string)
    (alternatives : gmap string (list string)) (c l : string) :
  suggest_step icons alternatives (c, l) !! c =
  match candidates icons l with
  | [] => alternatives !! c
  | (_ :: _) as cands => Some (take 5 cands)
  end.
Proof.
  unfold suggest_step. destruct (candidates icons l); [done|].
  by rewrite lookup_insert_eq.
Qed.

Lemma suggest_fold_not_in (icons : list string) (missing : icon_table) :
  ∀ (alternatives : gmap string (list string)) (c : string),
    c ∉ missing.*1 →
    fold_left (suggest_step icons) missing alternatives !! c
    = alternatives !! c.
Proof.
  induction missing as [|e missing IH]; intros alternatives c Hc; [done|].
  cbn [fold_left]. rewrite fmap_cons in Hc.
  apply not_elem_of_cons in Hc as [Hne Hc].
  rewrite IH by done. by apply suggest_step_lookup_ne.
Qed.

Lemma suggest_fold_in (icons : list string) (missing : icon_table) :
  ∀ (alternatives : gmap string (list string)) (c l : string),
    NoDup missing.*1 → (c, l) ∈ missing →
    fold_left (suggest_step icons) missing alternatives !! c =
    match candidates icons l with
    | [] => alternatives !! c
    | (_ :: _) as cands => Some (take 5 cands)
    end.
Proof.
  induction missing as [|[c' l'] missing IH]; intros alternatives c l Hnd Hin.
  - by apply elem_of_nil in Hin.
  - cbn [fold_left]. rewrite fmap_cons in Hnd.
    apply NoDup_cons in Hnd as [Hc' Hnd]. cbn [fst] in Hc'.
    apply elem_of_cons in Hin as [[= -> ->]|Hin].
    + rewrite suggest_fold_not_in by done. apply suggest_step_lookup_eq.
    + assert (c ≠ c').
      { intros ->. apply Hc'. apply list_elem_of_fmap. by exists (c', l). }
      rewrite (IH _ c l Hnd Hin).
      by rewrite (suggest_step_lookup_ne icons alternatives (c', l') c).
Qed.

Lemma app_inv_tail_str (a b t : string) : a +:+ t = b +:+ t → a = b.
Proof.
  revert b. induction a as [|x a IH]; intros [|y b] H.
  - done.
  - exfalso. apply (f_equal String.length) in H.
    rewrite app_nil_l_str, app_cons_str in H. cbn [String.length] in H.
    rewrite length_app_str in H. lia.
  - exfalso. apply (f_equal String.length) in H.
    rewrite app_nil_l_str, app_cons_str in H. cbn [String.length] in H.
    rewrite length_app_str in H. lia.
  - rewrite !app_cons_str in H. injection H as -> H. f_equal. by apply IH.
Qed.

(** The claim as stated fails: [search.png] is a file of the directory
    whose name contains the token [search], yet the entry gets no
    suggestion at all. *)
Lemma suggest_alternatives_skips_other_files :
  ∃ alternatives,
    suggest_alternatives [("edit-find", "search")] suggest_png_world
      "/tmp/lucide-icons/icons" = Return alternatives ∧
    suggestions_as_specified
      (Os.dir_order suggest_png_world "/tmp/lucide-icons/icons") "search"
      = ["search.png"] ∧
    alternatives !! "edit-find" = None ∧
    alternatives !! "edit-find" ≠
      Some (suggestions_as_specified
              (Os.dir_order suggest_png_world "/tmp/lucide-icons/icons")
              "search").
Proof.
  eexists. split; [vm_compute; reflexivity|].
  split; [vm_compute; reflexivity|].
  split; [vm_compute; reflexivity|].
  vm_compute. discriminate.
Qed.

Lemma elem_of_all_lucide_icons (listing : list string) (icon : string) :
  (∀ f, f ∈ listing → Py.endswith f ".svg" = true →
        Py.replace f ".svg" "" +:+ ".svg" = f) →
  icon ∈ all_lucide_icons listing ↔ icon +:+ ".svg" ∈ listing.
Proof.
  intros Hplain. unfold all_lucide_icons.
  rewrite list_elem_of_fmap. split.
  - intros (f & -> & [Hsvg Hf]%list_elem_of_filter). by rewrite Hplain.
  - intros Hin. exists (icon +:+ ".svg").
    assert (Hsvg : Py.endswith (icon +:+ ".svg") ".svg" = true)
      by (apply endswith_spec; by exists icon).
    split; [|by apply list_elem_of_filter].
    apply (app_inv_tail_str _ _ ".svg"). by rewrite Hplain.
Qed.

(** C6 (amended).  For a list of missing entries with distinct legacy
    names and a directory whose listed [.svg] names contain [.svg] only as
    their extension, the icon names are the names of the [.svg] files of
    the directory without the extension, in listing order; the candidates
    of an entry are the icon names that contain the token before the first
    hyphen of its external identifier; an entry with at least one candidate
    is associated with its first five candidates, in listing order, and an
    entry with no candidate, like a name that is not in the list, has no
    association. *)
Theorem suggest_alternatives_spec
    (missing_icons : icon_table) (w : Os.world) (lucide_icons_path : string)
    (listing : list string) :
  Os.listdir w lucide_icons_path = Return listing →
  NoDup missing_icons.*1 →
  (∀ f, f ∈ listing → Py.endswith f ".svg" = true →
        Py.replace f ".svg" "" +:+ ".svg" = f) →
  ∃ alternatives,
    suggest_alternatives missing_icons w lucide_icons_path
      = Return alternatives ∧
    (∀ icon, icon ∈ all_lucide_icons listing ↔ icon +:+ ".svg" ∈ listing) ∧
    (∀ c l, (c, l) ∈ missing_icons →
        alternatives !! c =
        match candidates (all_lucide_icons listing) l with
        | [] => None
        | (_ :: _) as cands => Some (take 5 cands)
        end) ∧
    (∀ c, c ∉ missing_icons.*1 → alternatives !! c = None) ∧
    (∀ c l s, (c, l) ∈ missing_icons → alternatives !! c = Some s →
        s ≠ [] ∧ (length s ≤ 5)%nat ∧
        s `prefix_of` candidates (all_lucide_icons listing) l ∧
        s `sublist_of` all_lucide_icons listing ∧
        ∀ icon, icon ∈ s →
          Py.contains (Py.split_head "-" l) icon = true
          ∧ icon +:+ ".svg" ∈ listing).
Proof.
  intros Hl Hnd Hplain. unfold suggest_alternatives.
  rewrite Hl, bind_Return. eexists. split; [reflexivity|].
  set (icons := all_lucide_icons listing).
  assert (Hin : ∀ c l, (c, l) ∈ missing_icons →
            fold_left (suggest_step icons) missing_icons ∅ !! c =
            match candidates icons l with
            | [] => None
            | (_ :: _) as cands => Some (take 5 cands)
            end).
  { intros c l Hcl. rewrite (suggest_fold_in icons missing_icons ∅ c l Hnd Hcl).
    destruct (candidates icons l); [apply lookup_empty|done]. }
  split_and!.
  - intros icon. by apply elem_of_all_lucide_icons.
  - exact Hin.
  - intros c Hc. rewrite suggest_fold_not_in by done. apply lookup_empty.
  - intros c l s Hcl Hs. rewrite (Hin c l Hcl) in Hs.
    destruct (candidates icons l) as [|x cands] eqn:Hcands; [done|].
    injection Hs as <-.
    assert (Hpre : take 5 (x :: cands) `prefix_of` x :: cands)
      by apply prefix_take.
    assert (Hsub : x :: cands `sublist_of` icons)
      by (rewrite <- Hcands; apply sublist_filter).
    split_and!.
    + intros Hnil. discriminate Hnil.
    + cbn [length]. rewrite length_take. lia.
    + done.
    + etrans; [exact (sublist_take (x :: cands) 5)|done].
    + intros icon Hicon.
      assert (Hc : icon ∈ candidates icons l).
      { rewrite Hcands.
        by apply (sublist_subseteq _ _ (sublist_take (x :: cands) 5)). }
      apply list_elem_of_filter in Hc as [Hc Hi]. split; [done|].
      by apply (elem_of_all_lucide_icons listing icon Hplain).
Qed.

Lemma suggest_alternatives_spec_witness :
  ∃ alternatives,
    suggest_alternatives [("edit-find", "search-glass"); ("tool-cut", "knife")]
      suggest_svg_world "/tmp/lucide-icons/icons" = Return alternatives ∧
    alternatives !! "edit-find" =
      Some ["search"; "file-search"; "search-check"; "search-code";
            "search-slash"] ∧
    alternatives !! "tool-cut" = None.
Proof.
  destruct (suggest_alternatives_spec
              [("edit-find", "search-glass"); ("tool-cut", "knife")]
              suggest_svg_world "/tmp/lucide-icons/icons"
              (Os.dir_order suggest_svg_world "/tmp/lucide-icons/icons"))
    as (alternatives & Hrun & _ & Hin & _).
  - vm_compute. reflexivity.
  - apply (bool_decide_unpack _). vm_compute. exact I.
  - refine (proj1 (Forall_forall
                     (λ f, Py.endswith f ".svg" = true →
                           Py.replace f ".svg" "" +:+ ".svg" = f) _) _).
    apply (bool_decide_unpack _). vm_compute. exact I.
  - exists alternatives. split; [exact Hrun|]. split.
    + rewrite (Hin "edit-find" "search-glass"); [vm_compute; reflexivity|].
      apply (bool_decide_unpack _). vm_compute. exact I.
    + rewrite (Hin "tool-cut" "knife"); [vm_compute; reflexivity|].
      apply (bool_decide_unpack _). vm_compute. exact I.
Defined.

(** ** The silent WAV placeholder *)

Lemma length_le_bytes (n : nat) (v : Z) : String.length (le_bytes n v) = n.
Proof.
  revert v. induction n as [|n IH]; intros v; cbn [le_bytes String.length];
    [done|]. by rewrite IH.
Qed.

Lemma length_pad_to (n : nat) (b : string) : String.length (pad_to n b) = n.
Proof.
  revert b. induction n as [|n IH]; intros b; [done|].
  destruct b; cbn [pad_to String.length]; by rewrite IH.
Qed.

Lemma N_of_byte_of_Z (v : Z) :
  Z.of_N (N_of_ascii (byte_of_Z v)) = (v mod 256)%Z.
Proof.
  unfold byte_of_Z.
  assert (0 ≤ v mod 256 < 256)%Z as [Hlo Hhi] by (apply Z.mod_pos_bound; lia).
  rewrite N_ascii_embedding by lia. by apply Z2N.id.
Qed.

(** Decoding the little-endian bytes gives the value back, modulo the
    width. *)
Lemma le_value_le_bytes (n : nat) (v : Z) :
  le_value (le_bytes n v) = (v mod 256 ^ Z.of_nat n)%Z.
Proof.
  revert v. induction n as [|n IH]; intros v.
  - cbn [le_bytes le_value]. change (256 ^ Z.of_nat 0)%Z with 1%Z.
    by rewrite Z.mod_1_r.
  - cbn [le_bytes le_value]. rewrite N_of_byte_of_Z, IH.
    rewrite Nat2Z.inj_succ, Z.pow_succ_r by lia.
    rewrite Z.rem_mul_r; [done|lia|]. apply Z.pow_pos_nonneg; lia.
Qed.

Lemma length_silent_samples (num_samples : Z) :
  String.length (silent_samples num_samples) = 2 * Z.to_nat num_samples.
Proof.
  unfold silent_samples.
  induction (Z.to_nat num_samples) as [|n IH]; [done|].
  cbn [repeat String.concat].
  destruct (repeat _ n) eqn:E.
  - destruct n; [done|discriminate].
  - rewrite app_nil_l_str, !app_cons_str, app_nil_l_str.
    cbn [String.length]. rewrite IH. lia.
Qed.

Lemma wav_header_eq (num_samples : Z) :
  (0 ≤ num_samples)%Z → (36 + num_samples * 2 < 2 ^ 32)%Z →
  wav_header num_samples =
  Return ("RIFF" +:+ le_bytes 4 (36 + num_samples * 2) +:+ wav_fixed_fields
          +:+ le_bytes 4 (num_samples * 2)).
Proof.
  intros Hlo Hhi. unfold wav_header. cbn [struct_pack pack_field].
  assert (H1 : (0 <=? 36 + num_samples * 2)%Z && (36 + num_samples * 2 <? 2 ^ 32)%Z = true).
  { apply andb_true_intro. split; [apply Z.leb_le|apply Z.ltb_lt]; lia. }
  assert (H2 : (0 <=? num_samples * 2)%Z && (num_samples * 2 <? 2 ^ 32)%Z = true).
  { apply andb_true_intro. split; [apply Z.leb_le|apply Z.ltb_lt]; lia. }
  rewrite H1, H2. vm_compute. reflexivity.
Qed.

Lemma wav_num_samples_nonneg (duration_ms : Z) :
  (0 ≤ duration_ms)%Z →
  wav_num_samples duration_ms = (44100 * duration_ms / 1000)%Z
  ∧ (0 ≤ 44100 * duration_ms / 1000)%Z.
Proof.
  intros Hd. unfold wav_num_samples. cbv zeta.
  rewrite Z.quot_div_nonneg by lia. split; [done|].
  apply Z.div_pos; lia.
Qed.

Lemma substring_0_length (s : string) :
  String.substring 0 (String.length s) s = s.
Proof. induction s as [|c s IH]; [done|]. cbn. by rewrite IH. Qed.

Lemma wav_layout (x y : Z) (samples : string) :
  let data := "RIFF" +:+ le_bytes 4 x +:+ wav_fixed_fields
              +:+ le_bytes 4 y +:+ samples in
  bytes_slice 0 4 data = "RIFF" ∧
  bytes_slice 4 8 data = le_bytes 4 x ∧
  bytes_slice 8 16 data = "WAVEfmt " ∧
  bytes_slice 16 20 data = le_bytes 4 16 ∧
  bytes_slice 20 22 data = le_bytes 2 1 ∧
  bytes_slice 22 24 data = le_bytes 2 1 ∧
  bytes_slice 24 28 data = le_bytes 4 44100 ∧
  bytes_slice 28 32 data = le_bytes 4 88200 ∧
  bytes_slice 32 34 data = le_bytes 2 2 ∧
  bytes_slice 34 36 data = le_bytes 2 16 ∧
  bytes_slice 36 40 data = "data" ∧
  bytes_slice 40 44 data = le_bytes 4 y ∧
  String.length data = 44 + String.length samples.
Proof.
  cbv zeta. split_and!; try reflexivity.
  by destruct samples.
Qed.

(** C3 (amended).  For a duration on which [struct.pack] does not raise, the file is
    the 44-byte header followed by two zero bytes per sample, the number
    of samples being 44100 * duration_ms / 1000 rounded down; the RIFF size
    field holds the file length minus 8 and the data size field the length
    of the payload. *)
Theorem silent_wav_bytes_spec (duration_ms : Z) :
  (0 ≤ duration_ms)%Z →
  (36 + 2 * (44100 * duration_ms / 1000) < 2 ^ 32)%Z →
  ∃ data,
    silent_wav_bytes duration_ms = Return data ∧
    Z.of_nat (String.length data) = (44 + 2 * (44100 * duration_ms / 1000))%Z ∧
    bytes_slice 0 4 data = "RIFF" ∧
    le_value (bytes_slice 4 8 data) = (Z.of_nat (String.length data) - 8)%Z ∧
    bytes_slice 8 16 data = "WAVEfmt " ∧
    le_value (bytes_slice 16 20 data) = 16%Z ∧
    le_value (bytes_slice 20 22 data) = 1%Z ∧
    le_value (bytes_slice 22 24 data) = 1%Z ∧
    le_value (bytes_slice 24 28 data) = 44100%Z ∧
    le_value (bytes_slice 28 32 data) = 88200%Z ∧
    le_value (bytes_slice 32 34 data) = 2%Z ∧
    le_value (bytes_slice 34 36 data) = 16%Z ∧
    bytes_slice 36 40 data = "data" ∧
    le_value (bytes_slice 40 44 data) = (Z.of_nat (String.length data) - 44)%Z ∧
    bytes_slice 44 (String.length data) data
      = silent_samples (44100 * duration_ms / 1000).
Proof.
  intros Hd Hhi.
  destruct (wav_num_samples_nonneg duration_ms Hd) as [Hn Hn0].
  set (n := (44100 * duration_ms / 1000)%Z) in *.
  unfold silent_wav_bytes. cbv zeta. rewrite Hn.
  rewrite wav_header_eq by lia. rewrite bind_Return.
  eexists. split; [reflexivity|].
  rewrite !app_assoc_str.
  destruct (wav_layout (36 + n * 2) (n * 2) (silent_samples n))
    as (H0 & H4 & H8 & H16 & H20 & H22 & H24 & H28 & H32 & H34 & H36 & H40 & Hlen).
  rewrite H0, H4, H8, H16, H20, H22, H24, H28, H32, H34, H36, H40.
  rewrite Hlen, length_silent_samples, !le_value_le_bytes.
  assert (Hz : Z.of_nat (44 + 2 * Z.to_nat n) = (44 + 2 * n)%Z) by lia.
  rewrite Hz. change (256 ^ Z.of_nat 4)%Z with 4294967296%Z.
  change (2 ^ 32)%Z with 4294967296%Z in Hhi.
  split_and!; try reflexivity.
  - rewrite Z.mod_small; lia.
  - rewrite Z.mod_small; lia.
  - unfold bytes_slice.
    replace (44 + 2 * Z.to_nat n - 44)%nat
      with (String.length (silent_samples n))
      by (rewrite length_silent_samples; lia).
    change (String.substring 44 ?m ("RIFF" +:+ ?a))
      with (String.substring 0 m (silent_samples n)).
    apply substring_0_length.
Qed.

Lemma silent_wav_bytes_spec_witness :
  ∃ data,
    silent_wav_bytes 500 = Return data ∧
    Z.of_nat (String.length data) = (44 + 44100)%Z.
Proof.
  destruct (silent_wav_bytes_spec 500) as (data & Hrun & Hlen & _).
  - lia.
  - vm_compute. reflexivity.
  - exists data. split; [exact Hrun|]. rewrite Hlen. vm_compute. reflexivity.
Defined.

(** The claim as stated fails: six milliseconds are 264.6 samples, which
    round to 265, but the file holds 264 samples, 572 bytes and not 574. *)
Lemma silent_wav_length_not_rounded :
  ∃ data,
    silent_wav_bytes 6 = Return data ∧
    rounded_num_samples 6 = 265%Z ∧
    Z.of_nat (String.length data) = 572%Z ∧
    Z.of_nat (String.length data) ≠ (44 + 2 * rounded_num_samples 6)%Z.
Proof.
  eexists. split; [vm_compute; reflexivity|].
  split; [vm_compute; reflexivity|].
  split; [vm_compute; reflexivity|].
  vm_compute. discriminate.
Qed.

(** A negative duration, or one whose payload does not fit the 32-bit size
    fields, makes [struct.pack] raise before the file is opened: nothing is
    written. *)
Lemma silent_wav_bytes_raises (duration_ms : Z) :
  (duration_ms < 0)%Z ∨ (2 ^ 32 ≤ 36 + 2 * (44100 * duration_ms / 1000))%Z →
  silent_wav_bytes duration_ms = Raise StructError ∧
  ∀ path fs, create_silent_wav path duration_ms fs = Raise StructError.
Proof.
  intros Hd.
  assert (Hraise : silent_wav_bytes duration_ms = Raise StructError).
  { unfold silent_wav_bytes, wav_header. cbv zeta.
    cbn [struct_pack pack_field]. rewrite bind_Return.
    assert (Hf : (0 <=? 36 + wav_num_samples duration_ms * 2)%Z
                 && (36 + wav_num_samples duration_ms * 2 <? 2 ^ 32)%Z = false).
    { apply andb_false_iff. destruct Hd as [Hneg|Hbig].
      - left. apply Z.leb_gt. unfold wav_num_samples. cbv zeta.
        assert (Z.quot (44100 * duration_ms) 1000 ≤ Z.quot (-44100) 1000)%Z
          by (apply Z.quot_le_mono; lia).
        change (Z.quot (-44100) 1000) with (-44)%Z in H. lia.
      - right. apply Z.ltb_ge.
        assert (0 ≤ duration_ms)%Z.
        { destruct (Z.le_gt_cases 0 duration_ms) as [|Hneg]; [done|].
          assert (44100 * duration_ms / 1000 < 0)%Z
            by (apply Z.div_lt_upper_bound; lia).
          change (2 ^ 32)%Z with 4294967296%Z in Hbig. lia. }
        destruct (wav_num_samples_nonneg duration_ms) as [-> _]; [done|]. lia. }
    rewrite Hf. reflexivity. }
  split; [exact Hraise|]. intros path fs. unfold create_silent_wav.
  by rewrite Hraise.
Qed.

(** ** Character sprites *)

Lemma contains_app_l (needle a b : string) :
  Py.contains needle a = true → Py.contains needle (a +:+ b) = true.
Proof.
  intros (pre & post & ->)%contains_spec. apply contains_spec.
  exists pre, (post +:+ b). by rewrite !app_assoc_str.
Qed.

Lemma contains_app_r (needle a b : string) :
  Py.contains needle b = true → Py.contains needle (a +:+ b) = true.
Proof.
  intros (pre & post & ->)%contains_spec. apply contains_spec.
  exists (a +:+ pre), post. by rewrite !app_assoc_str.
Qed.

Lemma dict_get_other {V} (d : list (string * V)) (key : string) (default : V) :
  key ∉ d.*1 → dict_get d key default = default.
Proof.
  induction d as [|[k v] d IH]; [done|]. rewrite fmap_cons. cbn [fst].
  intros [Hne Hd]%not_elem_of_cons. cbn [dict_get].
  destruct (String.eqb_spec k key) as [->|_]; [done|]. by apply IH.
Qed.

Lemma create_character_svg_known (name color expression : string)
    (accent_color : option string) (left_eye right_eye mouth : string) :
  dict_get eye_shapes expression (dict_get eye_shapes "neutral" ("", ""))
    = (left_eye, right_eye) →
  dict_get mouth_shapes expression (dict_get mouth_shapes "neutral" "") = mouth →
  create_character_svg name color expression accent_color =
  character_svg_template color left_eye right_eye mouth
    (character_accent name accent_color).
Proof. unfold create_character_svg. cbv zeta. by intros -> ->. Qed.

Ltac face_contains :=
  unfold character_svg_template;
  do 6 apply contains_app_r;
  rewrite <- !app_assoc_str;
  do 2 apply contains_app_l;
  vm_compute; reflexivity.

(** C7.  For every name, colour and accent colour, the sprite for
    [happy] contains the two eye paths and the mouth path drawn with the
    quadratic curve command [Q], the sprite for [neutral] contains two
    ellipses and a mouth drawn with the straight line command [L]; the
    three shapes of [happy] differ from those of [neutral]; and an
    expression that is none of [neutral], [happy], [sad], [surprised]
    gets the eyes and the mouth of [neutral], hence the same sprite. *)
Theorem create_character_svg_expressions
    (name color : string) (accent_color : option string) :
  let neutral_eyes := dict_get eye_shapes "neutral" ("", "") in
  let neutral_mouth := dict_get mouth_shapes "neutral" "" in
  let happy := create_character_svg name color "happy" accent_color in
  let neutral := create_character_svg name color "neutral" accent_color in
  Py.contains (Py.lit "<path d='M155 280 Q170 270 185 280' fill='white'/>")
    happy = true ∧
  Py.contains (Py.lit "<path d='M215 280 Q230 270 245 280' fill='white'/>")
    happy = true ∧
  Py.contains
    (Py.lit "<path d='M170 335 Q200 360 230 335' fill='none' stroke='white'")
    happy = true ∧
  Py.contains
    (Py.lit "<ellipse cx='170' cy='280' rx='15' ry='12' fill='white'/>")
    neutral = true ∧
  Py.contains
    (Py.lit "<ellipse cx='230' cy='280' rx='15' ry='12' fill='white'/>")
    neutral = true ∧
  Py.contains
    (Py.lit "<path d='M175 340 L225 340' fill='none' stroke='white'")
    neutral = true ∧
  (dict_get eye_shapes "happy" neutral_eyes).1 ≠ neutral_eyes.1 ∧
  (dict_get eye_shapes "happy" neutral_eyes).2 ≠ neutral_eyes.2 ∧
  dict_get mouth_shapes "happy" neutral_mouth ≠ neutral_mouth ∧
  Py.contains " Q" (dict_get eye_shapes "happy" neutral_eyes).1 = true ∧
  Py.contains " Q" (dict_get eye_shapes "happy" neutral_eyes).2 = true ∧
  Py.contains " Q" (dict_get mouth_shapes "happy" neutral_mouth) = true ∧
  Py.contains "Q" neutral_eyes.1 = false ∧
  Py.contains "Q" neutral_eyes.2 = false ∧
  Py.contains "Q" neutral_mouth = false ∧
  ∀ expression,
    expression ∉ ["neutral"; "happy"; "sad"; "surprised"] →
    dict_get eye_shapes expression neutral_eyes = neutral_eyes ∧
    dict_get mouth_shapes expression neutral_mouth = neutral_mouth ∧
    create_character_svg name color expression accent_color = neutral.
Proof.
  cbv zeta.
  rewrite (create_character_svg_known name color "happy" accent_color
             _ _ _ eq_refl eq_refl).
  rewrite (create_character_svg_known name color "neutral" accent_color
             _ _ _ eq_refl eq_refl).
  split_and!; try face_contains; try (vm_compute; reflexivity);
    try (vm_compute; discriminate).
  intros expression Hexpr.
  assert (He : dict_get eye_shapes expression
                 (dict_get eye_shapes "neutral" ("", ""))
               = dict_get eye_shapes "neutral" ("", ""))
    by (by apply dict_get_other).
  assert (Hm : dict_get mouth_shapes expression
                 (dict_get mouth_shapes "neutral" "")
               = dict_get mouth_shapes "neutral" "")
    by (by apply dict_get_other).
  split_and!; [done|done|].
  by apply create_character_svg_known.
Qed.

(** ** The accessory overlay *)

Lemma prefix_app_cases (needle s r : string) :
  String.prefix needle (s +:+ r) = true →
  String.prefix needle s = true ∨ String.prefix s needle = true.
Proof.
  revert s. induction needle as [|c needle IH]; intros s H.
  - left. by destruct s.
  - destruct s as [|d s]; [by right|].
    rewrite app_cons_str in H. cbn [String.prefix] in *.
    destruct (ascii_dec c d) as [->|Hne]; [|done].
    destruct (ascii_dec d d); [|done]. by apply IH.
Qed.

Lemma contains_app_const (needle a rest : string) :
  Py.contains needle a = false → straddle_free needle a = true →
  Py.contains needle (a +:+ rest) = Py.contains needle rest.
Proof.
  induction a as [|c a IH]; intros Hc Hs; [done|].
  rewrite app_cons_str. cbn [Py.contains straddle_free] in *.
  apply andb_prop in Hs as [Hp Hs]. apply negb_true_iff in Hp.
  destruct (String.prefix needle (String c a)) eqn:Hpa; [done|].
  destruct (String.prefix needle (String c (a +:+ rest))) eqn:Hpr.
  - apply (prefix_app_cases needle (String c a) rest) in Hpr as [H|H];
      congruence.
  - by apply IH.
Qed.

Lemma contains_app_var (c : ascii) (needle x rest : string) :
  Py.contains (String c "") x = false →
  Py.contains (String c needle) (x +:+ rest)
  = Py.contains (String c needle) rest.
Proof.
  induction x as [|d x IH]; intros Hx; [done|].
  rewrite app_cons_str. cbn [Py.contains String.prefix] in *.
  destruct (ascii_dec c d) as [->|Hne].
  - by destruct x.
  - by apply IH.
Qed.

Lemma character_face_cases (expression : string) :
  ∃ key, key ∈ ["neutral"; "happy"; "sad"; "surprised"] ∧
    ∀ name color accent_color,
      create_character_svg name color expression accent_color
      = create_character_svg name color key accent_color.
Proof.
  destruct (decide (expression ∈ ["neutral"; "happy"; "sad"; "surprised"]))
    as [Hin|Hout].
  - by exists expression.
  - exists "neutral". split; [by left|]. intros name color accent_color.
    unfold create_character_svg. cbv zeta.
    rewrite (dict_get_other eye_shapes expression) by done.
    by rewrite (dict_get_other mouth_shapes expression) by done.
Qed.

Ltac no_overlay Hcolor :=
  unfold character_svg_template;
  rewrite contains_app_const by (vm_compute; reflexivity);
  rewrite contains_app_var by exact Hcolor;
  rewrite contains_app_const by (vm_compute; reflexivity);
  rewrite contains_app_var by exact Hcolor;
  rewrite contains_app_const by (vm_compute; reflexivity);
  rewrite contains_app_var by exact Hcolor;
  vm_compute; reflexivity.

Lemma character_without_accent (name color expression : string) (tag : string) :
  tag ∈ ["<circle "; "<line "; "<polygon "] →
  Py.contains "<" color = false →
  Py.contains tag (create_character_svg name color expression None) = false.
Proof.
  intros Htag Hcolor.
  destruct (character_face_cases expression) as (key & Hkey & ->).
  unfold create_character_svg. cbv zeta. cbn [character_accent].
  repeat (apply elem_of_cons in Htag as [->|Htag]);
    [..|by apply elem_of_nil in Htag];
    repeat (apply elem_of_cons in Hkey as [->|Hkey]);
    try (by apply elem_of_nil in Hkey);
    cbn [dict_get eye_shapes mouth_shapes String.eqb Ascii.eqb Bool.eqb];
    no_overlay Hcolor.
Qed.

Lemma create_character_svg_no_accent (name color expression : string)
    (accent_color : option string) :
  character_accent name accent_color = "" →
  create_character_svg name color expression accent_color
  = create_character_svg name color expression None.
Proof.
  intros Ha. unfold create_character_svg. cbv zeta. rewrite Ha. reflexivity.
Qed.

Lemma character_accent_inv (name : string) (accent_color : option string) :
  character_accent name accent_color ≠ "" →
  ∃ c, accent_color = Some c ∧ c ≠ "" ∧
       ((name = "sam" ∧ character_accent name accent_color = glasses_accent c)
        ∨ (name = "professor"
           ∧ character_accent name accent_color = tie_accent c)).
Proof.
  destruct accent_color as [c|]; [|done]. cbn [character_accent].
  destruct (String.eqb_spec c "") as [->|Hc]; [done|].
  destruct (String.eqb_spec name "sam") as [->|Hsam].
  - intros _. exists c. split_and!; [done|done|by left].
  - destruct (String.eqb_spec name "professor") as [->|Hprof]; [|done].
    intros _. exists c. split_and!; [done|done|by right].
Qed.

(** C9.  Without an accent colour the sprite has no overlay: the accent
    slot of the template is empty and, for a colour that contains no [<],
    the text has no [circle], [line] or [polygon] element, also for the
    names [sam] and [professor].  If one of these elements is present, an
    accent colour was supplied, it is not empty, and the name is [sam] or
    [professor]; with such a colour [sam] gets the glasses and [professor]
    the tie. *)
Theorem character_accent_overlay (name color expression : string) :
  character_accent name None = "" ∧
  (∀ tag, tag ∈ ["<circle "; "<line "; "<polygon "] →
     Py.contains "<" color = false →
     Py.contains tag (create_character_svg name color expression None)
     = false) ∧
  (∀ accent_color tag,
     tag ∈ ["<circle "; "<line "; "<polygon "] →
     Py.contains "<" color = false →
     Py.contains tag
       (create_character_svg name color expression accent_color) = true →
     ∃ c, accent_color = Some c ∧ c ≠ "" ∧
          ((name = "sam"
            ∧ character_accent name accent_color = glasses_accent c)
           ∨ (name = "professor"
              ∧ character_accent name accent_color = tie_accent c))) ∧
  (∀ c, c ≠ "" →
     character_accent "sam" (Some c) = glasses_accent c ∧
     character_accent "professor" (Some c) = tie_accent c ∧
     Py.contains "<circle "
       (create_character_svg "sam" color expression (Some c)) = true ∧
     Py.contains "<line "
       (create_character_svg "sam" color expression (Some c)) = true ∧
     Py.contains "<polygon "
       (create_character_svg "professor" color expression (Some c)) = true).
Proof.
  split_and!.
  - done.
  - intros tag Htag Hcolor. by apply character_without_accent.
  - intros accent_color tag Htag Hcolor Hc.
    apply character_accent_inv. intros Ha.
    rewrite (create_character_svg_no_accent _ _ _ _ Ha) in Hc.
    by rewrite character_without_accent in Hc.
  - intros c Hc.
    assert (Hg : character_accent "sam" (Some c) = glasses_accent c).
    { cbn [character_accent]. by destruct (String.eqb_spec c ""). }
    assert (Ht : character_accent "professor" (Some c) = tie_accent c).
    { cbn [character_accent]. by destruct (String.eqb_spec c ""). }
    split_and!; [done|done|..];
      unfold create_character_svg; cbv zeta; rewrite ?Hg, ?Ht;
      destruct (dict_get eye_shapes expression _) as [left_eye right_eye];
      unfold character_svg_template, glasses_accent, tie_accent;
      do 13 apply contains_app_r; apply contains_app_l.
    + apply contains_app_l. vm_compute. reflexivity.
    + do 4 apply contains_app_r. apply contains_app_l. vm_compute. reflexivity.
    + apply contains_app_l. vm_compute. reflexivity.
Qed.

(** ** Backgrounds *)

